(** * import_memories.py: extraction and reconciliation of memory records

    A shallow embedding of [src/import_memories.py]: the [Memory] model and
    its content-keyed equality, [process_conversation],
    [fetch_open_webui_memories] (on the decoded response body) and the
    reconciliation block of [__main__] (lines 179-201); then
    [extract_memories] over the pool, the calls to the server and the run
    of lines 175-213.

    Conventions.
    - A Python [str] is a [string]; one [ascii] stands for one character.
    - A Python [int] is a [Z]; a Python [float] is a binary64 value of the
      standard library's [spec_float].
    - A decoded JSON document is a [value]; a JSON object is the Python
      [dict] it decodes to, kept as an association list in insertion order.
    - A Python [dict] keyed by [str] is a [pydict]: an association list in
      insertion order whose assignment overwrites in place.
    - Raising is a [Raise] result; [print] and [tqdm] output is not modelled,
      but for the error lines of the apply phase.
    - Behaviour that lives outside the repository (parsing numbers out of
      strings, [hash] of a string, the wall clock, pydantic's per-field
      coercions) is an interface, [Runtime]. *)

From Stdlib Require Import List String Ascii ZArith Bool Lia.
From Stdlib Require Import Permutation SpecFloat.
Import ListNotations.

Local Open Scope string_scope.
Local Open Scope list_scope.
Local Open Scope Z_scope.

(** ** Python values *)

Definition pyfloat : Type := spec_float.

#[warnings="-register-all"] Inductive value : Type :=
| VNone
| VBool (b : bool)
| VInt (z : Z)
| VFloat (f : pyfloat)
| VStr (s : string)
| VList (items : list value)
| VDict (entries : list (string * value)).

Inductive exn : Type :=
| AttributeError
| TypeError
| ValueError
| OverflowError
| KeyError
| ValidationError.

Inductive result (A : Type) : Type :=
| Ok (a : A)
| Raise (e : exn).

Arguments Ok {A} a.
Arguments Raise {A} e.

(** ** Insertion-ordered dictionaries *)

Section PyDict.
Context {V : Type}.

Definition pydict : Type := list (string * V).

(** [d.get(key)] *)
Fixpoint dict_get (key : string) (d : pydict) : option V :=
  match d with
  | [] => None
  | (k, v) :: rest => if String.eqb key k then Some v else dict_get key rest
  end.

(** [key in d] *)
Definition dict_contains (key : string) (d : pydict) : bool :=
  match dict_get key d with
  | Some _ => true
  | None => false
  end.

(** [d[key] = v]: an existing key keeps its place and takes the new
    value, a new key goes last. *)
Fixpoint dict_set (key : string) (v : V) (d : pydict) : pydict :=
  match d with
  | [] => [(key, v)]
  | (k, w) :: rest =>
      if String.eqb key k then (k, v) :: rest
      else (k, w) :: dict_set key v rest
  end.

Definition dict_keys (d : pydict) : list string := map fst d.
End PyDict.

Arguments pydict V : clear implicits.

(** ** Builtins on values *)

(** [bool(v)] *)
Definition truthy (v : value) : bool :=
  match v with
  | VNone => false
  | VBool b => b
  | VInt z => negb (z =? 0)
  | VFloat (S754_zero _) => false
  | VFloat _ => true
  | VStr s => negb (String.eqb s "")
  | VList [] => false
  | VList _ => true
  | VDict [] => false
  | VDict _ => true
  end.

(** [v == s] for a string literal [s] *)
Definition eq_str (v : value) (s : string) : bool :=
  match v with
  | VStr t => String.eqb t s
  | _ => false
  end.

(** [v.get(key, default)]: only a dict has [get]. *)
Definition py_get (v : value) (key : string) (default : value) : result value :=
  match v with
  | VDict d =>
      match dict_get key d with
      | Some x => Ok x
      | None => Ok default
      end
  | _ => Raise AttributeError
  end.

(** [v[key]] for a string key: [KeyError] on a dict without it,
    [TypeError] on anything that is not a dict. *)
Definition py_getitem (v : value) (key : string) : result value :=
  match v with
  | VDict d =>
      match dict_get key d with
      | Some x => Ok x
      | None => Raise KeyError
      end
  | _ => Raise TypeError
  end.

(** [v.items()] *)
Definition py_items (v : value) : result (list (string * value)) :=
  match v with
  | VDict d => Ok d
  | _ => Raise AttributeError
  end.

(** [sep.join(parts)] on a list of strings *)
Fixpoint join (sep : string) (parts : list string) : string :=
  match parts with
  | [] => ""
  | [s] => s
  | s :: rest => s ++ sep ++ join sep rest
  end.

Fixpoint all_strs (items : list value) : option (list string) :=
  match items with
  | [] => Some []
  | VStr s :: rest =>
      match all_strs rest with
      | Some ss => Some (s :: ss)
      | None => None
      end
  | _ :: _ => None
  end.

Fixpoint chars (s : string) : list string :=
  match s with
  | EmptyString => []
  | String c rest => String c EmptyString :: chars rest
  end.

(** The strings that iterating [v] yields: a list by items, a string by
    characters, a dict by keys; [None] when [v] cannot be iterated or
    yields something that is not a string. *)
Definition str_items (v : value) : option (list string) :=
  match v with
  | VList items => all_strs items
  | VStr s => Some (chars s)
  | VDict d => Some (dict_keys d)
  | _ => None
  end.

(** [sep.join(v)] *)
Definition py_join (sep : string) (v : value) : result string :=
  match str_items v with
  | Some ss => Ok (join sep ss)
  | None => Raise TypeError
  end.

(** [int(f)] on a float truncates toward zero. *)
Definition int_of_float (f : pyfloat) : result Z :=
  match f with
  | S754_zero _ => Ok 0
  | S754_infinity _ => Raise OverflowError
  | S754_nan => Raise ValueError
  | S754_finite s m e => Ok (cond_Zopp s (Z.shiftl (Zpos m) e))
  end.

(** [float(z)] on an int rounds to nearest even and overflows past the
    largest double. *)
Definition float_of_int (z : Z) : result pyfloat :=
  match binary_normalize 53 1024 z 0 false with
  | S754_infinity _ => Raise OverflowError
  | f => Ok f
  end.

(** ** What the interpreter and pydantic supply *)

Class Runtime : Type := {
  (** [int(s)] on a string; [None] is [ValueError] *)
  int_of_str : string -> option Z;
  (** [float(s)] on a string; [None] is [ValueError] *)
  float_of_str : string -> option pyfloat;
  (** [hash(s)] on a string *)
  str_hash : string -> Z;
  (** [int(time.time())] at the n-th reading of the clock *)
  clock : nat -> Z;
  (** pydantic's coercion into a [str], [int] and [float] field; [None]
      is a validation failure *)
  validate_str : value -> option string;
  validate_int : value -> option Z;
  validate_float : value -> option pyfloat;
  (** a value that already has the field's type is taken as it is *)
  validate_str_str : forall s, validate_str (VStr s) = Some s;
  validate_int_int : forall z, validate_int (VInt z) = Some z;
  validate_float_float : forall f, validate_float (VFloat f) = Some f
}.

Section Builtins.
Context `{Runtime}.

(** [int(v)] *)
Definition py_int (v : value) : result Z :=
  match v with
  | VInt z => Ok z
  | VBool b => Ok (if b then 1 else 0)
  | VFloat f => int_of_float f
  | VStr s =>
      match int_of_str s with
      | Some z => Ok z
      | None => Raise ValueError
      end
  | VNone | VList _ | VDict _ => Raise TypeError
  end.

(** [float(v)] *)
Definition py_float (v : value) : result pyfloat :=
  match v with
  | VFloat f => Ok f
  | VInt z => float_of_int z
  | VBool b => float_of_int (if b then 1 else 0)
  | VStr s =>
      match float_of_str s with
      | Some f => Ok f
      | None => Raise ValueError
      end
  | VNone | VList _ | VDict _ => Raise TypeError
  end.
End Builtins.

(** ** The Memory model (lines 20-35) *)

Record Memory : Type := {
  content : string;
  created_at : Z;
  updated_at : Z;
  weight : option pyfloat;
  model : option string;
  server_id : option string
}.

(** What [__eq__] can be handed: a Memory or any other value. *)
Inductive object : Type :=
| ObjMemory (m : Memory)
| ObjValue (v : value).

Section MemoryModel.
Context `{Runtime}.

(** A field annotated [T | None]: [None] stays [None], anything else
    goes through [T]'s coercion. *)
Definition validate_optional {T : Type} (validate : value -> option T)
    (v : value) : option (option T) :=
  match v with
  | VNone => Some None
  | _ => option_map Some (validate v)
  end.

(** [Memory(content=..., created_at=..., ...)]: every field is validated
    and any failure raises [ValidationError]. *)
Definition Memory_init (content created_at updated_at weight model server_id : value)
    : result Memory :=
  match validate_str content,
        validate_int created_at,
        validate_int updated_at,
        validate_optional validate_float weight,
        validate_optional validate_str model,
        validate_optional validate_str server_id with
  | Some c, Some ca, Some ua, Some w, Some m, Some sid =>
      Ok (Build_Memory c ca ua w m sid)
  | _, _, _, _, _, _ => Raise ValidationError
  end.

(** [Memory.__eq__] *)
Definition Memory_eq (self : Memory) (other : object) : bool :=
  match other with
  | ObjMemory o => String.eqb (content self) (content o)
  | ObjValue _ => false
  end.

(** [Memory.__hash__] *)
Definition Memory_hash (self : Memory) : Z := str_hash (content self).
End MemoryModel.

(** ** Clock readings and exceptions: a state-and-error monad

    The state is the number of clock readings made so far; it survives an
    exception, so that a handler resumes after the readings of the body it
    guards. *)

Definition M (A : Type) : Type := nat -> result A * nat.

Definition ret {A : Type} (a : A) : M A := fun n => (Ok a, n).

Definition bind {A B : Type} (m : M A) (k : A -> M B) : M B :=
  fun n =>
    match m n with
    | (Ok a, n') => k a n'
    | (Raise e, n') => (Raise e, n')
    end.

Definition lift {A : Type} (r : result A) : M A := fun n => (r, n).

Notation "x <- m ;; k" := (bind m (fun x => k))
  (at level 61, m at next level, right associativity).

(** [try: body / except <caught>: handler] *)
Definition try_except {A : Type} (caught : exn -> bool) (body handler : M A) : M A :=
  fun n =>
    match body n with
    | (Raise e, n') => if caught e then handler n' else (Raise e, n')
    | r => r
    end.

(** [for x in xs: s = body(s, x)] *)
Fixpoint for_each {A S : Type} (body : S -> A -> M S) (xs : list A) (s : S) : M S :=
  match xs with
  | [] => ret s
  | x :: rest => s' <- body s x ;; for_each body rest s'
  end.

Definition newline : string := String (ascii_of_nat 10) EmptyString.

Definition is_ValidationError (e : exn) : bool :=
  match e with
  | ValidationError => true
  | _ => false
  end.

Definition is_ValidationError_or_KeyError (e : exn) : bool :=
  match e with
  | ValidationError | KeyError => true
  | _ => false
  end.

Section Extraction.
Context `{Runtime}.

(** [int(time.time())] *)
Definition now : M Z := fun n => (Ok (clock n), S n).

(** [int(t) if t else int(time.time())] (lines 88-89) *)
Definition time_or_now (t : value) : M Z :=
  if truthy t then lift (py_int t) else now.

(** [float(weight) if weight is not None else None] (line 90) *)
Definition float_or_none (weight : value) : M value :=
  match weight with
  | VNone => ret VNone
  | _ => f <- lift (py_float weight) ;; ret (VFloat f)
  end.

(** The call of lines 86-93, its arguments evaluated in order. *)
Definition new_memory (memory_content : string)
    (create_time update_time weight model : value) : M Memory :=
  created <- time_or_now create_time ;;
  updated <- time_or_now update_time ;;
  w <- float_or_none weight ;;
  lift (Memory_init (VStr memory_content) (VInt created) (VInt updated) w
          (if truthy model then model else VNone) VNone).

(** One turn of the loop of lines 71-97 on the value [msg_data]. *)
Definition process_message (memories : list Memory) (msg_data : value)
    : M (list Memory) :=
  if negb (truthy msg_data) then ret memories else
  message <- lift (py_get msg_data "message" VNone) ;;
  if negb (truthy message) then ret memories else
  recipient <- lift (py_get message "recipient" VNone) ;;
  if eq_str recipient "bio" then
    content_field <- lift (py_get message "content" (VDict [])) ;;
    memory_content_list <- lift (py_get content_field "parts" (VList [])) ;;
    memory_content <- lift (py_join newline memory_content_list) ;;
    create_time <- lift (py_get message "create_time" VNone) ;;
    update_time <- lift (py_get message "update_time" VNone) ;;
    weight <- lift (py_get message "weight" VNone) ;;
    metadata <- lift (py_get message "metadata" (VDict [])) ;;
    model <- lift (py_get metadata "model_slug" VNone) ;;
    try_except is_ValidationError
      (memory <- new_memory memory_content create_time update_time weight model ;;
       ret (memories ++ [memory]))
      (ret memories)
  else ret memories.

(** [process_conversation] (lines 67-98): the memories in the order of the
    mapping, and the size of the mapping. *)
Definition process_conversation (convo : value) : M (list Memory * Z) :=
  mapping_field <- lift (py_get convo "mapping" (VDict [])) ;;
  mapping <- lift (py_items mapping_field) ;;
  memories <- for_each (fun memories item => process_message memories (snd item))
                mapping [] ;;
  ret (memories, Z.of_nat (List.length mapping)).

(** [for x in v]: a list by items, a dict by keys, a string by characters. *)
Definition py_iter (v : value) : result (list value) :=
  match v with
  | VList items => Ok items
  | VDict d => Ok (map VStr (dict_keys d))
  | VStr s => Ok (map VStr (chars s))
  | _ => Raise TypeError
  end.

(** The call of lines 110-117; the defaults [int(time.time())] are
    evaluated whether or not they are used. *)
Definition server_memory (memory_data : value) : M Memory :=
  content_field <- lift (py_getitem memory_data "content") ;;
  t1 <- now ;;
  created <- lift (py_get memory_data "created_at" (VInt t1)) ;;
  t2 <- now ;;
  updated <- lift (py_get memory_data "updated_at" (VInt t2)) ;;
  weight <- lift (py_get memory_data "weight" VNone) ;;
  model <- lift (py_get memory_data "model" VNone) ;;
  id <- lift (py_get memory_data "id" VNone) ;;
  lift (Memory_init content_field created updated weight model id).

(** [fetch_open_webui_memories] from line 106 on: [memories_data] is the
    decoded body of the response (lines 102-105 are the HTTP call). *)
Definition fetch_open_webui_memories (memories_data : value) : M (list Memory) :=
  items <- lift (py_iter memories_data) ;;
  for_each
    (fun memories memory_data =>
       try_except is_ValidationError_or_KeyError
         (memory <- server_memory memory_data ;; ret (memories ++ [memory]))
         (ret memories))
    items [].

End Extraction.

(** ** The reconciliation block of [__main__] (lines 179-201)

    The block works on module-level variables; [Globals] holds the six it
    reads or assigns, and each statement is a step on [Globals]. *)

Record Globals : Type := {
  all_memories : list Memory;
  existing_server_memories : list Memory;
  server_memories_by_content : pydict Memory;
  local_memories_by_content : pydict Memory;
  memories_to_upload : list Memory;
  memories_to_delete : list Memory
}.

(** [d = {}] then [for mem in mems: d[mem.content] = mem] *)
Definition by_content (mems : list Memory) : pydict Memory :=
  fold_left (fun d mem => dict_set (content mem) mem d) mems [].

(** Lines 190-197, on the pair (memories_to_upload, memories_to_delete).
    A Memory is always truthy, so [if local_mem] tests that [get] found
    one. *)
Definition match_step (local_d : pydict Memory)
    (lists : list Memory * list Memory) (item : string * Memory)
    : list Memory * list Memory :=
  let '(to_upload, to_delete) := lists in
  let '(key, server_mem) := item in
  match dict_get key local_d with
  | Some local_mem =>
      if created_at local_mem <? created_at server_mem
      then (to_upload ++ [local_mem], to_delete ++ [server_mem])
      else (to_upload, to_delete)
  | None => (to_upload, to_delete)
  end.

Definition match_loop (server_d local_d : pydict Memory)
    (lists : list Memory * list Memory) : list Memory * list Memory :=
  fold_left (match_step local_d) server_d lists.

(** Lines 199-201, on memories_to_upload. *)
Definition new_step (server_d : pydict Memory)
    (to_upload : list Memory) (item : string * Memory) : list Memory :=
  let '(key, local_mem) := item in
  if negb (dict_contains key server_d) then to_upload ++ [local_mem]
  else to_upload.

Definition new_loop (server_d local_d : pydict Memory)
    (to_upload : list Memory) : list Memory :=
  fold_left (new_step server_d) local_d to_upload.

(** Lines 179-181 *)
Definition fold_server (g : Globals) : Globals :=
  {| all_memories := all_memories g;
     existing_server_memories := existing_server_memories g;
     server_memories_by_content := by_content (existing_server_memories g);
     local_memories_by_content := local_memories_by_content g;
     memories_to_upload := memories_to_upload g;
     memories_to_delete := memories_to_delete g |}.

(** Lines 183-185 *)
Definition fold_local (g : Globals) : Globals :=
  {| all_memories := all_memories g;
     existing_server_memories := existing_server_memories g;
     server_memories_by_content := server_memories_by_content g;
     local_memories_by_content := by_content (all_memories g);
     memories_to_upload := memories_to_upload g;
     memories_to_delete := memories_to_delete g |}.

(** Lines 187-188 *)
Definition clear_lists (g : Globals) : Globals :=
  {| all_memories := all_memories g;
     existing_server_memories := existing_server_memories g;
     server_memories_by_content := server_memories_by_content g;
     local_memories_by_content := local_memories_by_content g;
     memories_to_upload := [];
     memories_to_delete := [] |}.

(** Lines 190-197 *)
Definition classify_matched (g : Globals) : Globals :=
  let lists := match_loop (server_memories_by_content g)
                 (local_memories_by_content g)
                 (memories_to_upload g, memories_to_delete g) in
  {| all_memories := all_memories g;
     existing_server_memories := existing_server_memories g;
     server_memories_by_content := server_memories_by_content g;
     local_memories_by_content := local_memories_by_content g;
     memories_to_upload := fst lists;
     memories_to_delete := snd lists |}.

(** Lines 199-201 *)
Definition classify_new (g : Globals) : Globals :=
  {| all_memories := all_memories g;
     existing_server_memories := existing_server_memories g;
     server_memories_by_content := server_memories_by_content g;
     local_memories_by_content := local_memories_by_content g;
     memories_to_upload :=
       new_loop (server_memories_by_content g) (local_memories_by_content g)
         (memories_to_upload g);
     memories_to_delete := memories_to_delete g |}.

(** Lines 179-201 in sequence. *)
Definition reconcile_block (g : Globals) : Globals :=
  classify_new (classify_matched (clear_lists (fold_local (fold_server g)))).

(** The block entered with the extracted and the fetched lists, whatever
    the other variables hold. *)
Definition enter (local remote : list Memory) : Globals :=
  {| all_memories := local;
     existing_server_memories := remote;
     server_memories_by_content := [];
     local_memories_by_content := [];
     memories_to_upload := [];
     memories_to_delete := [] |}.

(** (uploads, deletions) as the block leaves them. *)
Definition reconcile (local remote : list Memory) : list Memory * list Memory :=
  let g := reconcile_block (enter local remote) in
  (memories_to_upload g, memories_to_delete g).

(** ** Forms of the fold and of the two loops used in the proofs *)

Definition keyed_by_content (d : pydict Memory) : Prop :=
  forall k m, In (k, m) d -> content m = k.

Definition fold_from (d : pydict Memory) (mems : list Memory) : pydict Memory :=
  fold_left (fun d mem => dict_set (content mem) mem d) mems d.

Definition stale_local (local_d : pydict Memory) (item : string * Memory) : list Memory :=
  match dict_get (fst item) local_d with
  | Some local_mem =>
      if created_at local_mem <? created_at (snd item) then [local_mem] else []
  | None => []
  end.

Definition stale_server (local_d : pydict Memory) (item : string * Memory) : list Memory :=
  match dict_get (fst item) local_d with
  | Some local_mem =>
      if created_at local_mem <? created_at (snd item) then [snd item] else []
  | None => []
  end.

Definition only_local (server_d : pydict Memory) (item : string * Memory) : list Memory :=
  if dict_contains (fst item) server_d then [] else [snd item].

(** ** Vocabulary of the claims

    A record counts as present in a list when the list holds a record
    [==] to it, which is how Python's [in] would look for it. *)

Definition listed (r : Memory) (l : list Memory) : Prop :=
  exists x, In x l /\ Memory_eq r (ObjMemory x) = true.

Definition uploaded (local remote : list Memory) (r : Memory) : Prop :=
  listed r (fst (reconcile local remote)).

Definition deleted (local remote : list Memory) (r : Memory) : Prop :=
  listed r (snd (reconcile local remote)).

(** The content is a key of both dictionaries. *)
Definition matched (local remote : list Memory) (c : string) : Prop :=
  dict_contains c (by_content local) = true
  /\ dict_contains c (by_content remote) = true.

(** The record kept for the content on the local side was created
    strictly before the one kept on the server side. *)
Definition stale (local remote : list Memory) (c : string) : Prop :=
  exists l s,
    dict_get c (by_content local) = Some l
    /\ dict_get c (by_content remote) = Some s
    /\ created_at l < created_at s.

(** The message under [msg_data] is a "bio" message whose parts are [p]:
    the tests and lookups of lines 72-79 all pass. *)
Definition bio_parts_of (msg_data p : value) : Prop :=
  truthy msg_data = true
  /\ exists message recipient content_field,
       py_get msg_data "message" VNone = Ok message
       /\ truthy message = true
       /\ py_get message "recipient" VNone = Ok recipient
       /\ eq_str recipient "bio" = true
       /\ py_get message "content" (VDict []) = Ok content_field
       /\ py_get content_field "parts" (VList []) = Ok p.

(** [p] is the parts of a "bio" message of the conversation's mapping. *)
Definition bio_parts (convo p : value) : Prop :=
  exists mapping key msg_data,
    py_get convo "mapping" (VDict []) = Ok (VDict mapping)
    /\ In (key, msg_data) mapping
    /\ bio_parts_of msg_data p.

(** ** Sample data and a runtime to run it with *)

Definition mem (c : string) (t : Z) (sid : option string) : Memory :=
  {| content := c; created_at := t; updated_at := t;
     weight := None; model := None; server_id := sid |}.

(** A runtime for the sample runs: pydantic fields take only values of
    their own type, no string parses as a number, the clock ticks once a
    reading. No sample run parses a number out of a string or hands a
    field a value of another type that pydantic would convert. *)
Definition sample_runtime : Runtime :=
  {| int_of_str := fun _ => None;
     float_of_str := fun _ => None;
     str_hash := fun s => Z.of_nat (String.length s);
     clock := fun n => 1700000000 + Z.of_nat n;
     validate_str := fun v => match v with VStr s => Some s | _ => None end;
     validate_int := fun v => match v with VInt z => Some z | _ => None end;
     validate_float := fun v => match v with VFloat f => Some f | _ => None end;
     validate_str_str := fun _ => eq_refl;
     validate_int_int := fun _ => eq_refl;
     validate_float_float := fun _ => eq_refl |}.

(** A node of the mapping holding a "bio" message. *)
Definition bio_node (parts : value) (create_time model_slug : value) : value :=
  VDict [("message",
          VDict [("recipient", VStr "bio");
                 ("content", VDict [("parts", parts)]);
                 ("create_time", create_time);
                 ("update_time", VInt 200);
                 ("metadata", VDict [("model_slug", model_slug)])])].

Definition convo_of (nodes : list (string * value)) : value :=
  VDict [("mapping", VDict nodes)].

(** A "bio" message without parts. *)
Definition convo_empty_parts : value :=
  convo_of [("m1", bio_node (VList []) (VInt 100) (VStr "gpt-4"))].

(** Two "bio" messages, the second with a create_time that [int] rejects. *)
Definition convo_bad_create_time : value :=
  convo_of [("m1", bio_node (VList [VStr "likes tea"]) (VInt 100) (VStr "gpt-4"));
            ("m2", bio_node (VList [VStr "has a cat"]) (VList [VInt 1]) (VStr "gpt-4"))].

(** Two "bio" messages, the first with a model_slug that is no string. *)
Definition convo_bad_model : value :=
  convo_of [("m1", bio_node (VList [VStr "likes tea"]) (VInt 100) (VList [VInt 4]));
            ("m2", bio_node (VList [VStr "has a cat"]) (VInt 100) (VStr "gpt-4"))].

(** A response body with one memory that carries no id. *)
Definition body_without_id : value :=
  VList [VDict [("content", VStr "likes tea");
                ("created_at", VInt 100);
                ("updated_at", VInt 100)]].

Definition body_with_id : value :=
  VList [VDict [("id", VStr "s1");
                ("content", VStr "likes tea");
                ("created_at", VInt 100);
                ("updated_at", VInt 100)]].

(** ** [extract_memories] (lines 38-64)

    The conversations are the decoded input file. The tasks of the pool
    run side by side, so the clock readings of one task are not
    consecutive readings of the run: [sched i k] is the reading of the run
    that is the k-th reading of task [i], and [order] lists the indices of
    the conversations in the order their futures complete ([as_completed]
    yields every future once). What [memory.json()] returns and whether
    the output file takes what is written to it is an interface,
    [OutputFile]. *)

(** [len(v)] *)
Definition py_len (v : value) : result Z :=
  match v with
  | VList items => Ok (Z.of_nat (List.length items))
  | VDict d => Ok (Z.of_nat (List.length d))
  | VStr s => Ok (Z.of_nat (String.length s))
  | _ => Raise TypeError
  end.

(** [len(convo.get("mapping", {}))] *)
Definition mapping_size (convo : value) : result Z :=
  match py_get convo "mapping" (VDict []) with
  | Ok mapping => py_len mapping
  | Raise e => Raise e
  end.

(** Line 42: [sum(len(convo.get("mapping", {})) for convo in conversations)],
    from the running total [acc]. *)
Fixpoint total_messages_from (acc : Z) (convos : list value) : result Z :=
  match convos with
  | [] => Ok acc
  | convo :: rest =>
      match mapping_size convo with
      | Ok size => total_messages_from (acc + size) rest
      | Raise e => Raise e
      end
  end.

(** The runtime with another clock. *)
Definition with_clock (R : Runtime) (c : nat -> Z) : Runtime :=
  {| int_of_str := @int_of_str R;
     float_of_str := @float_of_str R;
     str_hash := @str_hash R;
     clock := c;
     validate_str := @validate_str R;
     validate_int := @validate_int R;
     validate_float := @validate_float R;
     validate_str_str := @validate_str_str R;
     validate_int_int := @validate_int_int R;
     validate_float_float := @validate_float_float R |}.

(** What [future.result()] gives for task [i]: the value or the exception
    of [process_conversation] on its conversation. *)
Definition task_result (R : Runtime) (sched : nat -> nat -> nat) (i : nat)
    (convo : value) : result (list Memory * Z) :=
  fst (@process_conversation (with_clock R (fun k => @clock R (sched i k)))
         convo 0%nat).

(** One turn of the loop of lines 52-58 on (all_memories, progress). *)
Definition collect (state : list Memory * Z) (r : result (list Memory * Z))
    : list Memory * Z :=
  let '(all_memories, progress) := state in
  match r with
  | Ok (memories, msg_count) => (all_memories ++ memories, progress + msg_count)
  | Raise _ => (all_memories, progress)
  end.

(** The results of the futures in completion order. *)
Definition completed (R : Runtime) (sched : nat -> nat -> nat)
    (convos : list value) (order : list nat) : list (result (list Memory * Z)) :=
  flat_map (fun i =>
              match nth_error convos i with
              | Some convo => [task_result R sched i convo]
              | None => []
              end) order.

(** Lines 41-58: the list [all_memories] as the loop over the futures
    leaves it, or the exception of line 42. *)
Definition gather_memories (R : Runtime) (conversations : value)
    (sched : nat -> nat -> nat) (order : list nat) : result (list Memory) :=
  match py_iter conversations with
  | Ok convos =>
      match total_messages_from 0 convos with
      | Ok _ =>
          Ok (fst (fold_left collect (completed R sched convos order) ([], 0)))
      | Raise e => Raise e
      end
  | Raise e => Raise e
  end.

(** The output file of lines 60-62. *)
Class OutputFile : Type := {
  (** [memory.json()]; [None] when it raises *)
  to_json : Memory -> option string;
  (** [open(output_file, "w", encoding="utf-8")] returns *)
  opens : bool;
  (** [f.write(line)] returns, after the lines written so far *)
  writes : list string -> string -> bool;
  (** leaving the [with] block returns, after the lines written *)
  closes : list string -> bool
}.

(** The loop of lines 61-62 after the lines [written]: all the lines in
    the end, or [None] when a call raised. *)
Fixpoint write_lines (O : OutputFile) (memories : list Memory)
    (written : list string) : option (list string) :=
  match memories with
  | [] => Some written
  | memory :: rest =>
      match @to_json O memory with
      | Some text =>
          let line := (text ++ newline)%string in
          if @writes O written line
          then write_lines O rest (written ++ [line])
          else None
      | None => None
      end
  end.

(** How [extract_memories] ends: it returns [all_memories] with the lines
    of the output file written, it raises at line 42, or it raises over
    the output file. *)
Inductive extraction_end : Type :=
| Returned (all_memories : list Memory) (lines : list string)
| RaisedEarly (e : exn)
| RaisedWriting.

(** [extract_memories] (lines 38-64) *)
Definition extract_memories (R : Runtime) (O : OutputFile) (conversations : value)
    (sched : nat -> nat -> nat) (order : list nat) : extraction_end :=
  match gather_memories R conversations sched order with
  | Raise e => RaisedEarly e
  | Ok all_memories =>
      if @opens O then
        match write_lines O all_memories [] with
        | Some lines =>
            if @closes O lines then Returned all_memories lines
            else RaisedWriting
        | None => RaisedWriting
        end
      else RaisedWriting
  end.

(** ** The HTTP calls (lines 101-106 and 125-166)

    A call of [requests] is a request sent and an outcome received; what
    the server answers may depend on the requests sent before. The error
    lines that [delete_memories] and [upload_memories] print are kept as
    the list of the records they name. *)

Inductive http_method : Type := GET | POST | DELETE.

Record http_request : Type := {
  method : http_method;
  url : string;
  headers : list (string * string);
  params : list (string * value);
  json : option value
}.

(** The response with its status code and its body decoded as JSON
    ([None] when the body is not JSON), or the [RequestException] that the
    call raised instead of returning one. *)
Inductive http_outcome : Type :=
| Responded (status_code : Z) (body : option value)
| NoResponse.

Class Network : Type := {
  respond : list http_request -> http_request -> http_outcome
}.

(** [f"{x}"] for a setting read with [os.environ.get] or an optional
    field: the string, or ["None"]. *)
Definition fmt (x : option string) : string :=
  match x with
  | Some s => s
  | None => "None"
  end.

(** An optional string as a value. *)
Definition opt_value (x : option string) : value :=
  match x with
  | Some s => VStr s
  | None => VNone
  end.

(** [response.raise_for_status()] raises on a 4xx or 5xx status. *)
Definition raises_for_status (status_code : Z) : bool :=
  (400 <=? status_code) && (status_code <? 600).

Definition Net (A : Type) : Type := list http_request -> A * list http_request.

Definition authorization (jwt_token : option string) : list (string * string) :=
  [("Authorization", ("Bearer " ++ fmt jwt_token)%string)].

Definition delete_request (url jwt_token : option string) (memory : Memory)
    : http_request :=
  {| method := DELETE;
     url := (fmt url ++ "/api/v1/memories/" ++ fmt (server_id memory))%string;
     headers := authorization jwt_token;
     params := [];
     json := None |}.

Definition add_request (url user_id jwt_token : option string) (memory : Memory)
    : http_request :=
  {| method := POST;
     url := (fmt url ++ "/api/v1/memories/add")%string;
     headers := authorization jwt_token;
     params := [];
     json := Some (VDict [("user", opt_value user_id);
                          ("content", VStr (content memory));
                          ("created_at", VInt (created_at memory));
                          ("updated_at", VInt (updated_at memory))]) |}.

Definition fetch_request (url user_id jwt_token : option string) : http_request :=
  {| method := GET;
     url := (fmt url ++ "/api/v1/memories/")%string;
     headers := authorization jwt_token;
     params := [("user", opt_value user_id)];
     json := None |}.

Section Http.
Context `{Network}.

(** Send a request and tell whether the [try] body of lines 128-131 or
    160-163 ran to its [return True]. *)
Definition send_ok (request : http_request) : Net bool :=
  fun sent =>
    (match respond sent request with
     | Responded status_code _ => negb (raises_for_status status_code)
     | NoResponse => false
     end,
     sent ++ [request]).

(** [delete_open_webui_memory] (lines 125-134) *)
Definition delete_open_webui_memory (url user_id jwt_token : option string)
    (memory : Memory) : Net bool :=
  send_ok (delete_request url jwt_token memory).

(** [add_open_webui_memory] (lines 151-166) *)
Definition add_open_webui_memory (url user_id jwt_token : option string)
    (memory : Memory) : Net bool :=
  send_ok (add_request url user_id jwt_token memory).

(** [for memory in memories: if not call(memory): print(...)], the
    records of the printed lines being added to [failed]. *)
Fixpoint each_memory (call : Memory -> Net bool) (memories failed : list Memory)
    : Net (list Memory) :=
  fun sent =>
    match memories with
    | [] => (failed, sent)
    | memory :: rest =>
        let '(success, sent') := call memory sent in
        each_memory call rest
          (if success then failed else failed ++ [memory]) sent'
    end.

(** [delete_memories] (lines 137-141) *)
Definition delete_memories (memories_to_delete : list Memory)
    (url user_id jwt_token : option string) : Net (list Memory) :=
  each_memory (delete_open_webui_memory url user_id jwt_token)
    memories_to_delete [].

(** [upload_memories] (lines 144-148) *)
Definition upload_memories (memories_to_upload : list Memory)
    (url user_id jwt_token : option string) : Net (list Memory) :=
  each_memory (add_open_webui_memory url user_id jwt_token)
    memories_to_upload [].

(** Lines 203-213: the deletions, then the uploads; an empty list is
    announced and skipped. The result is the records of the error lines
    of each phase. *)
Definition apply_plan (g : Globals) (url user_id jwt_token : option string)
    : Net (list Memory * list Memory) :=
  fun sent =>
    let '(not_deleted, sent1) :=
      match memories_to_delete g with
      | [] => ([], sent)
      | _ :: _ => delete_memories (memories_to_delete g) url user_id jwt_token sent
      end in
    let '(not_uploaded, sent2) :=
      match memories_to_upload g with
      | [] => ([], sent1)
      | _ :: _ => upload_memories (memories_to_upload g) url user_id jwt_token sent1
      end in
    ((not_deleted, not_uploaded), sent2).

End Http.

(** How a run of lines 175-213 ends. *)
Inductive run_end : Type :=
| Finished (not_deleted not_uploaded : list Memory)
| FetchFailed
| FetchRaised (e : exn).

Section Sync.
Context `{Runtime} `{Network}.

(** Lines 175-213 with the extracted records given: fetch, reconcile,
    apply. A fetch that raises (no response, a 4xx or 5xx status, a body
    that is not JSON, or an exception of lines 107-122) ends the run. *)
Definition sync (all_memories : list Memory) (url user_id jwt_token : option string)
    (n : nat) : Net run_end :=
  fun sent =>
    let request := fetch_request url user_id jwt_token in
    let sent1 := sent ++ [request] in
    match respond sent request with
    | NoResponse => (FetchFailed, sent1)
    | Responded status_code body =>
        if raises_for_status status_code then (FetchFailed, sent1)
        else
          match body with
          | None => (FetchFailed, sent1)
          | Some memories_data =>
              match fetch_open_webui_memories memories_data n with
              | (Raise e, _) => (FetchRaised e, sent1)
              | (Ok existing_server_memories, _) =>
                  let g := reconcile_block
                             (enter all_memories existing_server_memories) in
                  let '((not_deleted, not_uploaded), sent2) :=
                    apply_plan g url user_id jwt_token sent1 in
                  (Finished not_deleted not_uploaded, sent2)
              end
          end
    end.

End Sync.

(** ** Forms used in the proofs of the further properties *)

(** The last record of the list with the content [c]. *)
Fixpoint last_with (c : string) (mems : list Memory) : option Memory :=
  match mems with
  | [] => None
  | m :: rest =>
      match last_with c rest with
      | Some x => Some x
      | None => if String.eqb (content m) c then Some m else None
      end
  end.

(** The response object and the mapping node that carry a record. *)
Definition opt_float_value (x : option pyfloat) : value :=
  match x with
  | Some f => VFloat f
  | None => VNone
  end.

Definition object_of (m : Memory) : value :=
  VDict [("id", opt_value (server_id m));
         ("content", VStr (content m));
         ("created_at", VInt (created_at m));
         ("updated_at", VInt (updated_at m));
         ("weight", opt_float_value (weight m));
         ("model", opt_value (model m))].

Definition node_of (m : Memory) : value :=
  VDict [("message",
          VDict [("recipient", VStr "bio");
                 ("content", VDict [("parts", VList [VStr (content m)])]);
                 ("create_time", VInt (created_at m));
                 ("update_time", VInt (updated_at m));
                 ("weight", opt_float_value (weight m));
                 ("metadata", VDict [("model_slug", opt_value (model m))])])].

(** The server list once a plan went through, for a server that removes
    the records whose ids were deleted and lists what it was sent after
    the records it had. [stored_as u s]: the record [s] holds what the
    upload of [u] sent that the reconciliation reads. *)
Definition same_id (a b : option string) : bool :=
  match a, b with
  | Some x, Some y => String.eqb x y
  | None, None => true
  | _, _ => false
  end.

Definition id_deleted (deletions : list Memory) (s : Memory) : bool :=
  existsb (same_id (server_id s)) (map server_id deletions).

Definition stored_as (u s : Memory) : Prop :=
  content s = content u /\ created_at s = created_at u.

Definition after_plan (remote deletions stored : list Memory) : list Memory :=
  filter (fun s => negb (id_deleted deletions s)) remote ++ stored.

(** Two servers for sample runs: one that answers every request with
    status 200 and the body [body_with_id], one that never answers. *)
Definition server_ok : Network :=
  {| respond := fun _ _ => Responded 200 (Some body_with_id) |}.


(** ** Vocabulary of the claims on single records *)




(** The node holds no "bio" message: one of the tests of lines 72-78
    sends the loop to the next node. *)
Definition passed_over (msg_data : value) : Prop :=
  truthy msg_data = false
  \/ exists message,
       py_get msg_data "message" VNone = Ok message
       /\ (truthy message = false
           \/ exists recipient,
                py_get message "recipient" VNone = Ok recipient
                /\ eq_str recipient "bio" = false).


Section RecordsOfAMapping.
Context `{Runtime}.

(** The node holds a "bio" message whose model_slug is truthy and is
    refused by pydantic's str field: the one way for the call of lines
    86-93 to raise ValidationError. *)
Definition slug_refused (msg_data : value) : Prop :=
  (exists p, bio_parts_of msg_data p)
  /\ exists message metadata slug,
       py_get msg_data "message" VNone = Ok message
       /\ py_get message "metadata" (VDict []) = Ok metadata
       /\ py_get metadata "model_slug" VNone = Ok slug
       /\ truthy slug = true
       /\ validate_str slug = None.

(** The records of a mapping, node by node: a node without "bio" message
    gives none, a "bio" message whose model_slug is refused gives none,
    every other "bio" message gives one record, whose content is the
    newline-join of its parts, empty or not. *)
Inductive records_of : list (string * value) -> list Memory -> Prop :=
| records_end : records_of [] []
| records_passed_over key msg_data rest memories :
    passed_over msg_data ->
    records_of rest memories ->
    records_of ((key, msg_data) :: rest) memories
| records_refused key msg_data rest memories :
    slug_refused msg_data ->
    records_of rest memories ->
    records_of ((key, msg_data) :: rest) memories
| records_one key msg_data p items m rest memories :
    bio_parts_of msg_data p ->
    str_items p = Some items ->
    content m = join newline items ->
    server_id m = None ->
    records_of rest memories ->
    records_of ((key, msg_data) :: rest) (m :: memories).

End RecordsOfAMapping.

(** An output file that takes everything, for sample runs. *)
Definition output_ok : OutputFile :=
  {| to_json := fun m => Some (content m);
     opens := true;
     writes := fun _ _ => true;
     closes := fun _ => true |}.

(** Two lists for sample runs of the reconciliation: a stale pair ("a"),
    a pair that is not stale ("b"), a local content repeated and new to
    the server ("c"), a remote content that no local record has ("d"). *)
Definition sample_local : list Memory :=
  [mem "a" 50 None; mem "b" 300 None; mem "c" 7 None; mem "c" 9 None].

Definition sample_remote : list Memory :=
  [mem "a" 100 (Some "s1"); mem "b" 200 (Some "s2"); mem "d" 1 (Some "s3")].

(** * Properties *)

(** ** Sample runs of the reconciliation *)

Example scenario_A :
  reconcile [mem "likes tea" 100 None] [] = ([mem "likes tea" 100 None], []).
Proof. reflexivity. Qed.

Example scenario_B :
  reconcile [mem "likes tea" 50 None] [mem "likes tea" 100 (Some "s1")]
  = ([mem "likes tea" 50 None], [mem "likes tea" 100 (Some "s1")]).
Proof. reflexivity. Qed.

Example scenario_C :
  reconcile [mem "likes tea" 200 None] [mem "likes tea" 100 (Some "s1")]
  = ([], []).
Proof. reflexivity. Qed.

Example scenario_D :
  reconcile [] [mem "obsolete fact" 7 (Some "s9")] = ([], []).
Proof. reflexivity. Qed.

Example by_content_last_wins :
  by_content [mem "a" 1 None; mem "b" 2 None; mem "a" 3 None]
  = [("a", mem "a" 3 None); ("b", mem "b" 2 None)].
Proof. reflexivity. Qed.

(** ** Facts about dictionaries *)

Section DictFacts.
Context {V : Type}.
Implicit Types (d : pydict V) (k : string) (v : V).

Lemma dict_get_set_same k v d : dict_get k (dict_set k v d) = Some v.
Proof.
  induction d as [|[k' w] rest IH]; simpl.
  - now rewrite String.eqb_refl.
  - destruct (String.eqb k k') eqn:E; simpl; rewrite E; auto.
Qed.

Lemma dict_get_set_other k k' v d :
  k' <> k -> dict_get k' (dict_set k v d) = dict_get k' d.
Proof.
  intros Hne. induction d as [|[k0 w] rest IH]; simpl.
  - apply String.eqb_neq in Hne. now rewrite Hne.
  - destruct (String.eqb k k0) eqn:E; simpl.
    + apply String.eqb_eq in E. subst k0.
      apply String.eqb_neq in Hne. now rewrite Hne.
    + now rewrite IH.
Qed.

Lemma dict_get_None k d : dict_get k d = None <-> ~ In k (dict_keys d).
Proof.
  induction d as [|[k0 w] rest IH]; simpl.
  - tauto.
  - destruct (String.eqb k k0) eqn:E.
    + apply String.eqb_eq in E. subst. split; [discriminate | tauto].
    + apply String.eqb_neq in E. rewrite IH. split.
      * intros Hn [Heq | Hin]; [now apply E | now apply Hn].
      * tauto.
Qed.

Lemma dict_contains_keys k d : dict_contains k d = true <-> In k (dict_keys d).
Proof.
  unfold dict_contains. destruct (dict_get k d) eqn:E.
  - split; [intros _ | reflexivity].
    destruct (in_dec string_dec k (dict_keys d)) as [Hin | Hn]; [assumption|].
    apply dict_get_None in Hn. congruence.
  - apply dict_get_None in E. split; [discriminate | tauto].
Qed.

Lemma dict_get_In k v d : dict_get k d = Some v -> In (k, v) d.
Proof.
  induction d as [|[k0 w] rest IH]; simpl; [discriminate|].
  destruct (String.eqb k k0) eqn:E.
  - apply String.eqb_eq in E. intros [= ->]. subst. now left.
  - intros Hg. right. now apply IH.
Qed.

Lemma In_dict_get k v d :
  NoDup (dict_keys d) -> In (k, v) d -> dict_get k d = Some v.
Proof.
  induction d as [|[k0 w] rest IH]; simpl; [tauto|].
  intros Hnd [Heq | Hin].
  - injection Heq as -> ->. now rewrite String.eqb_refl.
  - inversion Hnd as [|? ? Hfresh Hrest]; subst.
    destruct (String.eqb k k0) eqn:E.
    + apply String.eqb_eq in E. subst k0. exfalso. apply Hfresh.
      apply (in_map fst) in Hin. exact Hin.
    + now apply IH.
Qed.

Lemma dict_keys_set k v d :
  dict_keys (dict_set k v d)
  = if dict_contains k d then dict_keys d else dict_keys d ++ [k].
Proof.
  unfold dict_contains.
  induction d as [|[k0 w] rest IH]; simpl; [reflexivity|].
  destruct (String.eqb k k0) eqn:E; simpl; [reflexivity|].
  rewrite IH. now destruct (dict_get k rest).
Qed.

Lemma dict_set_NoDup k v d :
  NoDup (dict_keys d) -> NoDup (dict_keys (dict_set k v d)).
Proof.
  intros Hnd. rewrite dict_keys_set.
  destruct (dict_contains k d) eqn:E; [assumption|].
  apply NoDup_app; [assumption | repeat constructor; simpl; tauto |].
  intros x Hx [<- | []].
  apply dict_contains_keys in Hx. congruence.
Qed.

Lemma dict_set_In k v k' v' d :
  In (k', v') (dict_set k v d) -> (k' = k /\ v' = v) \/ In (k', v') d.
Proof.
  induction d as [|[k0 w] rest IH]; simpl.
  - intros [[= <- <-] | []]. now left.
  - destruct (String.eqb k k0) eqn:E; simpl.
    + apply String.eqb_eq in E. subst k0.
      intros [[= <- <-] | Hin]; [now left | right; now right].
    + intros [Heq | Hin]; [right; now left|].
      destruct (IH Hin) as [? | ?]; [now left | right; now right].
Qed.

End DictFacts.

(** ** Facts about the fold into a content-keyed dictionary *)

Lemma fold_from_NoDup mems : forall d,
  NoDup (dict_keys d) -> NoDup (dict_keys (fold_from d mems)).
Proof.
  induction mems as [|m rest IH]; intros d Hnd; simpl; [assumption|].
  apply IH. now apply dict_set_NoDup.
Qed.

Lemma fold_from_keyed mems : forall d,
  keyed_by_content d -> keyed_by_content (fold_from d mems).
Proof.
  induction mems as [|m rest IH]; intros d Hk; simpl; [assumption|].
  apply IH. intros k x Hin.
  destruct (dict_set_In _ _ _ _ _ Hin) as [[-> ->] | Hold]; [reflexivity|].
  now apply Hk.
Qed.

Lemma fold_from_values mems : forall d k m,
  In (k, m) (fold_from d mems) -> In m mems \/ In (k, m) d.
Proof.
  induction mems as [|x rest IH]; intros d k m Hin; simpl in *; [now right|].
  destruct (IH _ _ _ Hin) as [Hr | Hd]; [left; now right|].
  destruct (dict_set_In _ _ _ _ _ Hd) as [[_ ->] | Hold]; [left; now left | now right].
Qed.

Lemma fold_from_get_skip mems : forall d c,
  (forall m, In m mems -> content m <> c) ->
  dict_get c (fold_from d mems) = dict_get c d.
Proof.
  induction mems as [|x rest IH]; intros d c Hno; simpl; [reflexivity|].
  rewrite IH by (intros m Hm; apply Hno; now right).
  apply dict_get_set_other. intros ->. apply (Hno x); [now left | reflexivity].
Qed.

Lemma fold_from_get_last before r after : forall d,
  (forall m, In m after -> content m <> content r) ->
  dict_get (content r) (fold_from d (before ++ r :: after)) = Some r.
Proof.
  intros d Hno. unfold fold_from. rewrite fold_left_app. simpl.
  fold (fold_from (dict_set (content r) r
          (fold_left (fun d mem => dict_set (content mem) mem d) before d)) after).
  rewrite fold_from_get_skip by assumption.
  apply dict_get_set_same.
Qed.

Lemma fold_from_keys mems : forall d c,
  In c (dict_keys (fold_from d mems))
  <-> In c (map content mems) \/ In c (dict_keys d).
Proof.
  induction mems as [|x rest IH]; intros d c; simpl; [tauto|].
  rewrite IH, dict_keys_set.
  destruct (dict_contains (content x) d) eqn:E.
  - apply dict_contains_keys in E. split; [tauto|].
    intros [[<- | Hr] | Hd]; tauto.
  - rewrite in_app_iff. simpl. split; [tauto|].
    intros [[<- | Hr] | Hd]; tauto.
Qed.

Lemma by_content_NoDup mems : NoDup (dict_keys (by_content mems)).
Proof. apply (fold_from_NoDup mems []). constructor. Qed.

Lemma by_content_keyed mems : keyed_by_content (by_content mems).
Proof. apply (fold_from_keyed mems []). intros k m []. Qed.

Lemma by_content_keys mems c :
  In c (dict_keys (by_content mems)) <-> In c (map content mems).
Proof.
  unfold by_content. fold (fold_from [] mems). rewrite fold_from_keys.
  simpl. tauto.
Qed.

Lemma by_content_get_content mems c m :
  dict_get c (by_content mems) = Some m -> content m = c /\ In m mems.
Proof.
  intros Hg. apply dict_get_In in Hg. split.
  - now apply (by_content_keyed mems).
  - destruct (fold_from_values mems [] c m Hg) as [? | []]. assumption.
Qed.

Lemma by_content_get_None mems c :
  dict_get c (by_content mems) = None <-> ~ In c (map content mems).
Proof. rewrite dict_get_None, by_content_keys. tauto. Qed.

(** ** The two loops as flat maps *)

Lemma match_loop_flat local_d server_d : forall to_upload to_delete,
  match_loop server_d local_d (to_upload, to_delete)
  = (to_upload ++ flat_map (stale_local local_d) server_d,
     to_delete ++ flat_map (stale_server local_d) server_d).
Proof.
  unfold match_loop.
  induction server_d as [|[k s] rest IH]; intros up del; simpl.
  - now rewrite !app_nil_r.
  - unfold stale_local, stale_server; simpl.
    destruct (dict_get k local_d) as [l|]; [|apply IH].
    destruct (created_at l <? created_at s); [|apply IH].
    rewrite IH. now rewrite <- !app_assoc.
Qed.

Lemma new_loop_flat server_d local_d : forall to_upload,
  new_loop server_d local_d to_upload
  = to_upload ++ flat_map (only_local server_d) local_d.
Proof.
  unfold new_loop.
  induction local_d as [|[k l] rest IH]; intros up; simpl.
  - now rewrite app_nil_r.
  - unfold only_local; simpl.
    destruct (dict_contains k server_d); simpl; [apply IH|].
    rewrite IH. now rewrite <- app_assoc.
Qed.

Lemma reconcile_flat local remote :
  reconcile local remote
  = (flat_map (stale_local (by_content local)) (by_content remote)
       ++ flat_map (only_local (by_content remote)) (by_content local),
     flat_map (stale_server (by_content local)) (by_content remote)).
Proof.
  unfold reconcile, reconcile_block, classify_new, classify_matched; simpl.
  rewrite match_loop_flat; simpl. now rewrite new_loop_flat.
Qed.

(** Membership in the two lists, read off the two dictionaries. *)

Lemma in_stale_local local remote x :
  In x (flat_map (stale_local (by_content local)) (by_content remote))
  <-> exists s, dict_get (content x) (by_content local) = Some x
             /\ dict_get (content x) (by_content remote) = Some s
             /\ created_at x < created_at s.
Proof.
  rewrite in_flat_map. split.
  - intros [[k s] [Hin Hx]]. unfold stale_local in Hx; simpl in Hx.
    destruct (dict_get k (by_content local)) as [l|] eqn:El; [|destruct Hx].
    destruct (created_at l <? created_at s) eqn:Elt; [|destruct Hx].
    destruct Hx as [<- | []].
    destruct (by_content_get_content _ _ _ El) as [<- _].
    exists s. repeat split; [assumption | | now apply Z.ltb_lt].
    apply In_dict_get; [apply by_content_NoDup | assumption].
  - intros [s [Hl [Hs Hlt]]]. exists (content x, s). split.
    + now apply dict_get_In.
    + unfold stale_local; simpl. rewrite Hl.
      apply Z.ltb_lt in Hlt. rewrite Hlt. now left.
Qed.

Lemma in_only_local local remote x :
  In x (flat_map (only_local (by_content remote)) (by_content local))
  <-> dict_get (content x) (by_content local) = Some x
      /\ dict_get (content x) (by_content remote) = None.
Proof.
  rewrite in_flat_map. split.
  - intros [[k l] [Hin Hx]]. unfold only_local, dict_contains in Hx; simpl in Hx.
    destruct (dict_get k (by_content remote)) eqn:Es; [destruct Hx|].
    destruct Hx as [<- | []].
    pose proof (by_content_keyed local _ _ Hin) as Hk. subst k.
    split; [|assumption].
    apply In_dict_get; [apply by_content_NoDup | assumption].
  - intros [Hl Hs]. exists (content x, x). split.
    + now apply dict_get_In.
    + unfold only_local, dict_contains; simpl. rewrite Hs. now left.
Qed.

Lemma in_uploads local remote x :
  In x (fst (reconcile local remote))
  <-> dict_get (content x) (by_content local) = Some x
      /\ match dict_get (content x) (by_content remote) with
         | Some s => created_at x < created_at s
         | None => True
         end.
Proof.
  rewrite reconcile_flat; simpl.
  rewrite in_app_iff, in_stale_local, in_only_local. split.
  - intros [[s [Hl [Hs Hlt]]] | [Hl Hs]]; rewrite Hs; auto.
  - intros [Hl Hs].
    destruct (dict_get (content x) (by_content remote)) as [s|] eqn:Es.
    + left. exists s. auto.
    + right. auto.
Qed.

Lemma in_deletions local remote x :
  In x (snd (reconcile local remote))
  <-> dict_get (content x) (by_content remote) = Some x
      /\ exists l, dict_get (content x) (by_content local) = Some l
                /\ created_at l < created_at x.
Proof.
  rewrite reconcile_flat; simpl. rewrite in_flat_map. split.
  - intros [[k s] [Hin Hx]]. unfold stale_server in Hx; simpl in Hx.
    destruct (dict_get k (by_content local)) as [l|] eqn:El; [|destruct Hx].
    destruct (created_at l <? created_at s) eqn:Elt; [|destruct Hx].
    destruct Hx as [<- | []].
    pose proof (by_content_keyed remote _ _ Hin) as Hk. subst k.
    split.
    + apply In_dict_get; [apply by_content_NoDup | assumption].
    + exists l. split; [assumption | now apply Z.ltb_lt].
  - intros [Hs [l [Hl Hlt]]]. exists (content x, x). split.
    + now apply dict_get_In.
    + unfold stale_server; simpl. rewrite Hl.
      apply Z.ltb_lt in Hlt. rewrite Hlt. now left.
Qed.

(** ** C1 *)

(** C1. For a content key present in both dictionaries, with [l] the
    local and [s] the server record kept under it: [s] is scheduled for
    deletion and [l] for upload exactly when [l] was created strictly
    before [s]; otherwise neither list holds any record of that content. *)
Theorem matched_pair_churned_iff_local_older local remote c l s :
  dict_get c (by_content local) = Some l ->
  dict_get c (by_content remote) = Some s ->
  (In s (snd (reconcile local remote)) /\ In l (fst (reconcile local remote))
   <-> created_at l < created_at s)
  /\ (created_at l >= created_at s ->
      forall x, content x = c ->
        ~ In x (fst (reconcile local remote))
        /\ ~ In x (snd (reconcile local remote))).
Proof.
  intros Hl Hs.
  destruct (by_content_get_content _ _ _ Hl) as [Hcl _].
  destruct (by_content_get_content _ _ _ Hs) as [Hcs _].
  split; [split|].
  - intros [_ Hup]. apply in_uploads in Hup. destruct Hup as [_ Hm].
    rewrite Hcl, Hs in Hm. exact Hm.
  - intros Hlt. split.
    + apply in_deletions. rewrite Hcs. split; [assumption|].
      exists l. auto.
    + apply in_uploads. rewrite Hcl, Hl, Hs. auto.
  - intros Hge x Hx. split.
    + intros Hup. apply in_uploads in Hup. destruct Hup as [Hx' Hm].
      rewrite Hx, Hs in Hm. rewrite Hx, Hl in Hx'. injection Hx' as ->. lia.
    + intros Hdel. apply in_deletions in Hdel.
      destruct Hdel as [Hx' [l' [Hl' Hlt]]].
      rewrite Hx, Hs in Hx'. rewrite Hx, Hl in Hl'.
      injection Hx' as ->. injection Hl' as ->. lia.
Qed.

Lemma matched_pair_churned_iff_local_older_witness :
  (In (mem "likes tea" 100 (Some "s1"))
      (snd (reconcile [mem "likes tea" 50 None] [mem "likes tea" 100 (Some "s1")]))
   /\ In (mem "likes tea" 50 None)
      (fst (reconcile [mem "likes tea" 50 None] [mem "likes tea" 100 (Some "s1")]))
   <-> 50 < 100)
  /\ (50 >= 100 ->
      forall x, content x = "likes tea" ->
        ~ In x (fst (reconcile [mem "likes tea" 50 None] [mem "likes tea" 100 (Some "s1")]))
        /\ ~ In x (snd (reconcile [mem "likes tea" 50 None] [mem "likes tea" 100 (Some "s1")]))).
Proof.
  apply (matched_pair_churned_iff_local_older
           [mem "likes tea" 50 None] [mem "likes tea" 100 (Some "s1")]
           "likes tea" (mem "likes tea" 50 None) (mem "likes tea" 100 (Some "s1")));
    reflexivity.
Defined.

(** ** C9 *)

(** C9. Every record in the deletions list has a replacement in the
    uploads list: a record of the same content. *)
Theorem deletion_has_replacement local remote d :
  In d (snd (reconcile local remote)) ->
  exists u, In u (fst (reconcile local remote)) /\ content u = content d.
Proof.
  intros Hd. apply in_deletions in Hd. destruct Hd as [Hs [l [Hl Hlt]]].
  destruct (by_content_get_content _ _ _ Hl) as [Hcl _].
  exists l. split; [|assumption].
  apply in_uploads. rewrite Hcl, Hl, Hs. auto.
Qed.

Lemma deletion_has_replacement_witness :
  exists u,
    In u (fst (reconcile [mem "likes tea" 50 None] [mem "likes tea" 100 (Some "s1")]))
    /\ content u = content (mem "likes tea" 100 (Some "s1")).
Proof.
  apply (deletion_has_replacement
           [mem "likes tea" 50 None] [mem "likes tea" 100 (Some "s1")]
           (mem "likes tea" 100 (Some "s1"))).
  simpl. left. reflexivity.
Defined.

(** ** C10 *)

Lemma stale_local_shape local_d :
  keyed_by_content local_d ->
  forall item, stale_local local_d item = []
    \/ exists x, stale_local local_d item = [x] /\ content x = fst item.
Proof.
  intros Hk [k s]. unfold stale_local; simpl.
  destruct (dict_get k local_d) as [l|] eqn:El; [|now left].
  destruct (created_at l <? created_at s); [|now left].
  right. exists l. split; [reflexivity|].
  apply (Hk k l). now apply dict_get_In.
Qed.

Lemma stale_server_shape local_d server_d :
  keyed_by_content server_d ->
  forall item, In item server_d ->
    stale_server local_d item = []
    \/ exists x, stale_server local_d item = [x] /\ content x = fst item.
Proof.
  intros Hk [k s] Hin. unfold stale_server; simpl.
  destruct (dict_get k local_d) as [l|]; [|now left].
  destruct (created_at l <? created_at s); [|now left].
  right. exists s. split; [reflexivity | now apply (Hk k s)].
Qed.

Lemma only_local_shape server_d local_d :
  keyed_by_content local_d ->
  forall item, In item local_d ->
    only_local server_d item = []
    \/ exists x, only_local server_d item = [x] /\ content x = fst item.
Proof.
  intros Hk [k l] Hin. unfold only_local; simpl.
  destruct (dict_contains k server_d); [now left|].
  right. exists l. split; [reflexivity | now apply (Hk k l)].
Qed.

(** A flat map that keeps at most one record for an entry, of the entry's
    own content, has contents without repetition, all among the keys. *)
Lemma flat_map_contents_NoDup_on (f : string * Memory -> list Memory)
    (d : pydict Memory) :
  (forall item, In item d ->
     f item = [] \/ exists x, f item = [x] /\ content x = fst item) ->
  NoDup (dict_keys d) ->
  NoDup (map content (flat_map f d))
  /\ (forall c, In c (map content (flat_map f d)) -> In c (dict_keys d)).
Proof.
  induction d as [|item rest IH]; intros Hf Hnd; simpl.
  - split; [constructor | tauto].
  - inversion Hnd as [|? ? Hfresh Hrest]; subst.
    destruct (IH (fun i Hi => Hf i (or_intror Hi)) Hrest) as [IHnd IHin].
    destruct (Hf item (or_introl eq_refl)) as [E | [x [E Hx]]]; rewrite E; simpl.
    + split; [assumption | intros c Hc; right; now apply IHin].
    + split.
      * constructor; [|assumption]. rewrite Hx. intros Hc. apply Hfresh.
        now apply IHin.
      * intros c [<- | Hc]; [now left | right; now apply IHin].
Qed.

(** C10. No two records of the uploads list share a content, and no two
    records of the deletions list do. *)
Theorem one_action_per_content local remote :
  NoDup (map content (fst (reconcile local remote)))
  /\ NoDup (map content (snd (reconcile local remote))).
Proof.
  rewrite reconcile_flat; simpl. split.
  - rewrite map_app.
    destruct (flat_map_contents_NoDup_on
                (stale_local (by_content local)) (by_content remote))
      as [Hnd1 Hin1];
      [intros item _; apply stale_local_shape, by_content_keyed
      | apply by_content_NoDup |].
    destruct (flat_map_contents_NoDup_on
                (only_local (by_content remote)) (by_content local))
      as [Hnd2 _];
      [apply only_local_shape, by_content_keyed | apply by_content_NoDup |].
    apply NoDup_app; [assumption | assumption |].
    intros c Hc1 Hc2. apply Hin1 in Hc1.
    apply in_map_iff in Hc2. destruct Hc2 as [x [<- Hx]].
    apply in_only_local in Hx. destruct Hx as [_ Hnone].
    apply dict_get_None in Hnone. contradiction.
  - apply (flat_map_contents_NoDup_on
             (stale_server (by_content local)) (by_content remote));
      [apply stale_server_shape, by_content_keyed | apply by_content_NoDup].
Qed.

(** ** C2 *)

Lemma Memory_eq_content r x :
  Memory_eq r (ObjMemory x) = true <-> content r = content x.
Proof. simpl. apply String.eqb_eq. Qed.



Lemma uploaded_iff local remote r :
  uploaded local remote r
  <-> dict_contains (content r) (by_content local) = true
      /\ (dict_contains (content r) (by_content remote) = false
          \/ stale local remote (content r)).
Proof.
  unfold uploaded, listed, dict_contains. split.
  - intros [x [Hx Heq]]. apply Memory_eq_content in Heq. rewrite Heq.
    apply in_uploads in Hx. destruct Hx as [Hl Hm]. rewrite Hl.
    split; [reflexivity|].
    destruct (dict_get (content x) (by_content remote)) as [s|] eqn:Es.
    + right. exists x, s. auto.
    + now left.
  - intros [Hc Hcase].
    destruct (dict_get (content r) (by_content local)) as [l|] eqn:El;
      [clear Hc | discriminate].
    destruct (by_content_get_content _ _ _ El) as [Hcl _].
    exists l. split; [|now apply Memory_eq_content].
    apply in_uploads. rewrite Hcl, El. split; [reflexivity|].
    destruct Hcase as [Hnone | [l' [s [Hl' [Hs Hlt]]]]].
    + now destruct (dict_get (content r) (by_content remote)).
    + rewrite Hs. congruence.
Qed.

Lemma deleted_iff local remote r :
  deleted local remote r <-> stale local remote (content r).
Proof.
  unfold deleted, listed. split.
  - intros [x [Hx Heq]]. apply Memory_eq_content in Heq. rewrite Heq.
    apply in_deletions in Hx. destruct Hx as [Hs [l [Hl Hlt]]].
    exists l, x. auto.
  - intros [l [s [Hl [Hs Hlt]]]].
    destruct (by_content_get_content _ _ _ Hs) as [Hcs _].
    exists s. split; [|now apply Memory_eq_content].
    apply in_deletions. rewrite Hcs. split; [assumption|]. exists l. auto.
Qed.

Lemma local_key local r :
  In r local -> dict_contains (content r) (by_content local) = true.
Proof.
  intros Hin. apply dict_contains_keys, by_content_keys. now apply in_map.
Qed.


(** ** C6 *)

Lemma by_content_length mems :
  List.length (by_content mems)
  = List.length (nodup string_dec (map content mems)).
Proof.
  rewrite <- (length_map fst (by_content mems)).
  apply Permutation_length, NoDup_Permutation.
  - apply by_content_NoDup.
  - apply NoDup_nodup.
  - intros c. rewrite nodup_In. apply by_content_keys.
Qed.

(** C6. The fold of a list of records into a content-keyed dictionary has
    one entry for each distinct content of the list and no other: its keys
    are without repetition, they are the contents that occur in the list,
    and there are as many entries as distinct contents; each entry is
    filed under its own content; the record kept for a content is the last
    one of the list with it; and equal lists give equal dictionaries. *)
Theorem fold_one_entry_per_content_last_wins mems :
  NoDup (dict_keys (by_content mems))
  /\ (forall c, In c (dict_keys (by_content mems)) <-> In c (map content mems))
  /\ List.length (by_content mems)
     = List.length (nodup string_dec (map content mems))
  /\ (forall k m, In (k, m) (by_content mems) -> content m = k /\ In m mems)
  /\ (forall before r after,
        mems = before ++ r :: after ->
        (forall m, In m after -> content m <> content r) ->
        dict_get (content r) (by_content mems) = Some r)
  /\ (forall mems', mems' = mems -> by_content mems' = by_content mems).
Proof.
  split; [apply by_content_NoDup|].
  split; [intros c; apply by_content_keys|].
  split; [apply by_content_length|].
  split; [|split].
  - intros k m Hin. split; [now apply (by_content_keyed mems)|].
    destruct (fold_from_values mems [] k m Hin) as [? | []]. assumption.
  - intros before r after -> Hlast.
    now apply (fold_from_get_last before r after []).
  - now intros mems' ->.
Qed.

Lemma fold_one_entry_per_content_last_wins_witness :
  dict_get "a" (by_content [mem "a" 1 None; mem "b" 2 None; mem "a" 3 None])
  = Some (mem "a" 3 None)
  /\ content (mem "b" 2 None) = "b".
Proof.
  destruct (fold_one_entry_per_content_last_wins
              [mem "a" 1 None; mem "b" 2 None; mem "a" 3 None])
    as [_ [_ [_ [Hkeyed [Hlast _]]]]].
  split.
  - apply (Hlast [mem "a" 1 None; mem "b" 2 None] (mem "a" 3 None) []).
    + reflexivity.
    + intros m [].
  - apply (Hkeyed "b" (mem "b" 2 None)). simpl. right. left. reflexivity.
Defined.

(** ** C7 *)

(** C7. The block leaves both input lists as they were; the state it
    leaves, and so the two lists it produces, depends on the two inputs
    alone, not on what the other variables held before; and entering the
    block a second time, from the state the first run left, produces the
    same state again. *)
Theorem reconcile_block_deterministic_and_readonly g :
  all_memories (reconcile_block g) = all_memories g
  /\ existing_server_memories (reconcile_block g) = existing_server_memories g
  /\ reconcile_block g
     = reconcile_block (enter (all_memories g) (existing_server_memories g))
  /\ (memories_to_upload (reconcile_block g), memories_to_delete (reconcile_block g))
     = reconcile (all_memories g) (existing_server_memories g)
  /\ reconcile_block (reconcile_block g) = reconcile_block g.
Proof. repeat split. Qed.

(** ** C5 *)

Section Identity.
Context `{Runtime}.

(** C5. Two records are [==] exactly when their contents are equal,
    whatever their other fields hold, and records that are [==] have the
    same hash. *)
Theorem eq_iff_same_content (r1 r2 : Memory) :
  (Memory_eq r1 (ObjMemory r2) = true <-> content r1 = content r2)
  /\ (Memory_eq r1 (ObjMemory r2) = true -> Memory_hash r1 = Memory_hash r2).
Proof.
  split.
  - apply Memory_eq_content.
  - intros Heq. apply Memory_eq_content in Heq. unfold Memory_hash.
    now rewrite Heq.
Qed.

End Identity.

(** ** Facts about extraction *)

(** One [lift]ed call at the head of a run: name its value, or be done
    because it raised. *)
Ltac run_lift H r x E :=
  unfold bind at 1, lift at 1 in H;
  destruct r as [x|] eqn:E; [|discriminate H].

Lemma join_empty sep items :
  sep <> "" -> (join sep items = "" <-> items = [] \/ items = [""]).
Proof.
  intros Hsep. destruct items as [|s [|t rest]]; simpl.
  - tauto.
  - split; [intros ->; now right | intros [? | [= ->]]; [discriminate | reflexivity]].
  - split; [|intros [? | ?]; discriminate].
    intros Hj. exfalso. destruct s; simpl in Hj; [|discriminate].
    destruct sep; [now apply Hsep | discriminate].
Qed.

Lemma for_each_invariant {A S : Type} (body : S -> A -> M S) (P : S -> Prop)
    (xs : list A) :
  (forall s x n s' n', In x xs -> P s -> body s x n = (Ok s', n') -> P s') ->
  forall s n s' n', P s -> for_each body xs s n = (Ok s', n') -> P s'.
Proof.
  induction xs as [|x rest IH]; intros Hbody s n s' n' Hs Hrun; simpl in Hrun.
  - unfold ret in Hrun. now injection Hrun as <- _.
  - unfold bind in Hrun. destruct (body s x n) as [[s1|e] n1] eqn:E;
      [|discriminate].
    apply (IH (fun s0 x0 n0 s0' n0' Hin => Hbody s0 x0 n0 s0' n0' (or_intror Hin))
             s1 n1 s' n'); [|assumption].
    apply (Hbody s x n s1 n1); [now left | assumption | assumption].
Qed.

Section ExtractionFacts.
Context `{Runtime}.

Lemma Memory_init_fields c ca ua w md sid m :
  Memory_init c ca ua w md sid = Ok m ->
  validate_str c = Some (content m)
  /\ validate_optional validate_str sid = Some (server_id m).
Proof.
  unfold Memory_init.
  destruct (validate_str c), (validate_int ca), (validate_int ua),
    (validate_optional validate_float w), (validate_optional validate_str md),
    (validate_optional validate_str sid); try discriminate.
  intros [= <-]. simpl. auto.
Qed.

Lemma new_memory_fields mc ct ut w md n m n' :
  new_memory mc ct ut w md n = (Ok m, n') ->
  content m = mc /\ server_id m = None.
Proof.
  unfold new_memory, bind, lift. intros Hrun.
  destruct (time_or_now ct n) as [[created|?] n1]; [|discriminate].
  destruct (time_or_now ut n1) as [[updated|?] n2]; [|discriminate].
  destruct (float_or_none w n2) as [[wv|?] n3]; [|discriminate].
  injection Hrun as Hinit _.
  apply Memory_init_fields in Hinit. destruct Hinit as [Hc Hsid].
  rewrite validate_str_str in Hc. simpl in Hsid. split; congruence.
Qed.

(** One turn of the extraction loop adds nothing or one record, made
    from the parts of the "bio" message it was given. *)
Lemma process_message_adds memories msg_data n memories' n' :
  process_message memories msg_data n = (Ok memories', n') ->
  memories' = memories
  \/ exists m p items,
       memories' = memories ++ [m]
       /\ bio_parts_of msg_data p
       /\ str_items p = Some items
       /\ content m = join newline items
       /\ server_id m = None.
Proof.
  unfold process_message. intros Hrun.
  destruct (truthy msg_data) eqn:Etd; simpl in Hrun;
    [|unfold ret in Hrun; left; congruence].
  run_lift Hrun (py_get msg_data "message" VNone) message Emsg.
  destruct (truthy message) eqn:Etm; simpl in Hrun;
    [|unfold ret in Hrun; left; congruence].
  run_lift Hrun (py_get message "recipient" VNone) recipient Erec.
  destruct (eq_str recipient "bio") eqn:Ebio;
    [|unfold ret in Hrun; left; congruence].
  run_lift Hrun (py_get message "content" (VDict [])) cf Ecf.
  run_lift Hrun (py_get cf "parts" (VList [])) p Ep.
  unfold bind at 1, lift at 1, py_join in Hrun.
  destruct (str_items p) as [items|] eqn:Eitems; [|discriminate].
  run_lift Hrun (py_get message "create_time" VNone) ct Ect.
  run_lift Hrun (py_get message "update_time" VNone) ut Eut.
  run_lift Hrun (py_get message "weight" VNone) w Ew.
  run_lift Hrun (py_get message "metadata" (VDict [])) md Emd.
  run_lift Hrun (py_get md "model_slug" VNone) ms Ems.
  unfold try_except, bind, ret in Hrun.
  destruct (new_memory (join newline items) ct ut w ms n) as [[m|e] n1] eqn:Enew.
  - injection Hrun as <- _. right. exists m, p, items.
    apply new_memory_fields in Enew. destruct Enew as [Hc Hsid].
    split; [reflexivity|]. split; [|auto].
    split; [assumption|]. exists message, recipient, cf. auto 7.
  - destruct (is_ValidationError e); [|discriminate].
    left. congruence.
Qed.

End ExtractionFacts.

(** ** Sample runs of the extraction *)

Example run_empty_parts :
  @process_conversation sample_runtime convo_empty_parts 0%nat
  = (Ok ([{| content := ""; created_at := 100; updated_at := 200;
             weight := None; model := Some "gpt-4"; server_id := None |}], 1),
     0%nat).
Proof. reflexivity. Qed.

Example run_bad_model :
  @process_conversation sample_runtime convo_bad_model 0%nat
  = (Ok ([{| content := "has a cat"; created_at := 100; updated_at := 200;
             weight := None; model := Some "gpt-4"; server_id := None |}], 2),
     0%nat).
Proof. reflexivity. Qed.

Example run_bad_create_time :
  @process_conversation sample_runtime convo_bad_create_time 0%nat
  = (Raise TypeError, 0%nat).
Proof. reflexivity. Qed.

Example run_body_without_id :
  @fetch_open_webui_memories sample_runtime body_without_id 0%nat
  = (Ok [{| content := "likes tea"; created_at := 100; updated_at := 100;
            weight := None; model := None; server_id := None |}],
     2%nat).
Proof. reflexivity. Qed.

Section ExtractionClaims.
Context `{Runtime}.

(** Every record of a conversation comes from the parts of one of its
    "bio" messages and has no server id. *)
Lemma process_conversation_records convo n memories count n' :
  process_conversation convo n = (Ok (memories, count), n') ->
  forall m, In m memories ->
    exists p items,
      bio_parts convo p
      /\ str_items p = Some items
      /\ content m = join newline items
      /\ server_id m = None.
Proof.
  unfold process_conversation. intros Hrun.
  run_lift Hrun (py_get convo "mapping" (VDict [])) mf Emf.
  run_lift Hrun (py_items mf) mapping Eitems.
  destruct mf; try discriminate. injection Eitems as ->.
  unfold bind, ret in Hrun.
  destruct (for_each _ mapping [] n) as [[ms|?] n1] eqn:Eloop; [|discriminate].
  injection Hrun as <- _ _.
  refine (for_each_invariant _
    (fun ms => forall m, In m ms ->
       exists p items, bio_parts convo p /\ str_items p = Some items
         /\ content m = join newline items /\ server_id m = None)
    mapping _ [] n ms n1 _ Eloop);
    [|intros m []].
  intros s [key msg_data] n0 s' n0' Hin Hs Hbody m Hm. simpl in Hbody.
  destruct (process_message_adds _ _ _ _ _ Hbody)
    as [-> | [m' [p [items [-> [Hbio [Hit [Hc Hsid]]]]]]]]; [now apply Hs|].
  apply in_app_iff in Hm. destruct Hm as [Hm | [<- | []]]; [now apply Hs|].
  exists p, items. repeat split; try assumption.
  exists mapping, key, msg_data. auto.
Qed.

Lemma server_memory_id memory_data n m n' :
  server_memory memory_data n = (Ok m, n') ->
  exists idv,
    py_get memory_data "id" VNone = Ok idv
    /\ validate_optional validate_str idv = Some (server_id m).
Proof.
  unfold server_memory, now. intros Hrun.
  run_lift Hrun (py_getitem memory_data "content") cf Ecf.
  unfold bind at 1 in Hrun. unfold bind at 1, lift at 1 in Hrun.
  destruct (py_get memory_data "created_at" _) as [ca|]; [|discriminate].
  unfold bind at 1 in Hrun. unfold bind at 1, lift at 1 in Hrun.
  destruct (py_get memory_data "updated_at" _) as [ua|]; [|discriminate].
  run_lift Hrun (py_get memory_data "weight" VNone) w Ew.
  run_lift Hrun (py_get memory_data "model" VNone) md Emd.
  run_lift Hrun (py_get memory_data "id" VNone) idv Eidv.
  unfold lift in Hrun. injection Hrun as Hinit _.
  apply Memory_init_fields in Hinit. exists idv. split; [reflexivity | tauto].
Qed.

(** Every fetched record takes its server id from the "id" of one of the
    objects of the response. *)
Lemma fetch_records memories_data n memories n' :
  fetch_open_webui_memories memories_data n = (Ok memories, n') ->
  forall m, In m memories ->
    exists items memory_data idv,
      py_iter memories_data = Ok items
      /\ In memory_data items
      /\ py_get memory_data "id" VNone = Ok idv
      /\ validate_optional validate_str idv = Some (server_id m).
Proof.
  unfold fetch_open_webui_memories. intros Hrun.
  run_lift Hrun (py_iter memories_data) items Eiter.
  refine (for_each_invariant _
    (fun ms => forall m, In m ms ->
       exists items0 memory_data idv,
         Ok items = Ok items0 /\ In memory_data items0
         /\ py_get memory_data "id" VNone = Ok idv
         /\ validate_optional validate_str idv = Some (server_id m))
    items _ [] n memories n' _ Hrun);
    [|intros m []].
  intros s memory_data n0 s' n0' Hin Hs Hbody m Hm.
  unfold try_except, bind, ret in Hbody.
  destruct (server_memory memory_data n0) as [[m'|e] n1] eqn:Esm.
  - injection Hbody as <- _.
    apply in_app_iff in Hm. destruct Hm as [Hm | [<- | []]]; [now apply Hs|].
    destruct (server_memory_id _ _ _ _ Esm) as [idv [Hid Hv]].
    exists items, memory_data, idv. auto.
  - destruct (is_ValidationError_or_KeyError e); [|discriminate].
    injection Hbody as <- _. now apply Hs.
Qed.


End ExtractionClaims.

(** ** C3 *)

Lemma newline_not_empty : newline <> "".
Proof. discriminate. Qed.

(** A "bio" message without parts yields a record whose content is empty,
    whatever the runtime. *)
Lemma empty_parts_any_runtime `{Runtime} n :
  process_conversation convo_empty_parts n
  = (Ok ([Build_Memory "" 100 200 None (Some "gpt-4") None], 1), n).
Proof.
  cbv -[validate_str validate_int validate_float clock].
  rewrite !validate_str_str, !validate_int_int. reflexivity.
Qed.

(** C3 fails as stated: extraction of [convo_empty_parts] succeeds and its
    one record has the empty string as content. *)
Lemma extraction_emits_empty_content :
  exists memories count n',
    @process_conversation sample_runtime convo_empty_parts 0%nat
    = (Ok (memories, count), n')
    /\ exists m, In m memories /\ content m = "".
Proof.
  exists [Build_Memory "" 100 200 None (Some "gpt-4") None], 1, 0%nat.
  split; [apply empty_parts_any_runtime|].
  eexists. split; [left; reflexivity | reflexivity].
Qed.

(** ** C4 *)

(** A record that pydantic rejects is dropped alone: the record after it
    is still extracted. *)
Example validation_error_drops_one_record :
  fst (@process_conversation sample_runtime convo_bad_model 0%nat)
  = Ok ([Build_Memory "has a cat" 100 200 None (Some "gpt-4") None], 2).
Proof. reflexivity. Qed.

(** C4 fails on the code. A create_time that [int] rejects raises
    [TypeError], which [except ValidationError] does not catch: the whole
    conversation raises and the record "likes tea", built before the bad
    one, is lost with it. *)
Theorem uncoercible_create_time_aborts_conversation `{Runtime} n :
  process_conversation convo_bad_create_time n = (Raise TypeError, n).
Proof.
  cbv -[validate_str validate_int validate_float clock].
  rewrite !validate_str_str, !validate_int_int. reflexivity.
Qed.

(** ** A response object without id *)

(** A response object without "id" yields a record without server id,
    whatever the runtime. *)
Lemma body_without_id_any_runtime `{Runtime} n :
  fetch_open_webui_memories body_without_id n
  = (Ok [Build_Memory "likes tea" 100 100 None None None], S (S n)).
Proof.
  cbv -[validate_str validate_int validate_float clock].
  rewrite !validate_str_str, !validate_int_int. reflexivity.
Qed.

(** * Further properties *)

(** ** The reconciliation block beyond the claims *)

Lemma plan_in_local local remote x :
  (In x (fst (reconcile local remote)) -> In x local)
  /\ (In x (snd (reconcile local remote)) -> In x remote).
Proof.
  split.
  - intros Hup. apply in_uploads in Hup. destruct Hup as [Hl _].
    now apply by_content_get_content in Hl.
  - intros Hdel. apply in_deletions in Hdel. destruct Hdel as [Hs _].
    now apply by_content_get_content in Hs.
Qed.

(** X1. The plan holds no record of its own making: every upload is one of
    the extracted records and every deletion is one of the fetched
    records. *)
Theorem plan_records_come_from_inputs local remote x :
  (In x (fst (reconcile local remote)) -> In x local)
  /\ (In x (snd (reconcile local remote)) -> In x remote).
Proof. apply plan_in_local. Qed.

Lemma stale_lists_same_length local_d (server_d : pydict Memory) :
  List.length (flat_map (stale_local local_d) server_d)
  = List.length (flat_map (stale_server local_d) server_d).
Proof.
  induction server_d as [|[k s] rest IH]; simpl; [reflexivity|].
  rewrite !length_app, IH. f_equal.
  unfold stale_local, stale_server; simpl.
  destruct (dict_get k local_d) as [l|]; [|reflexivity].
  now destruct (created_at l <? created_at s).
Qed.

Lemma only_local_length server_d (local_d : pydict Memory) :
  List.length (flat_map (only_local server_d) local_d)
  = List.length (filter (fun c => negb (dict_contains c server_d))
                   (dict_keys local_d)).
Proof.
  induction local_d as [|[k l] rest IH]; simpl; [reflexivity|].
  unfold only_local at 1; simpl.
  destruct (dict_contains k server_d); simpl; now rewrite IH.
Qed.

(** X2. There are as many uploads as deletions, plus one for each distinct
    local content that the server does not have. *)
Theorem uploads_are_replacements_plus_new local remote :
  List.length (fst (reconcile local remote))
  = (List.length (snd (reconcile local remote))
     + List.length (filter (fun c => negb (dict_contains c (by_content remote)))
                      (dict_keys (by_content local))))%nat.
Proof.
  rewrite reconcile_flat; simpl.
  now rewrite length_app, stale_lists_same_length, only_local_length.
Qed.

Lemma stale_local_no_local (server_d : pydict Memory) :
  flat_map (stale_local []) server_d = []
  /\ flat_map (stale_server []) server_d = [].
Proof.
  induction server_d as [|item rest [IH1 IH2]]; simpl; [auto|].
  now rewrite IH1, IH2.
Qed.

Lemma only_local_no_server (local_d : pydict Memory) :
  flat_map (only_local []) local_d = map snd local_d.
Proof.
  induction local_d as [|item rest IH]; simpl; [reflexivity|].
  now rewrite IH.
Qed.

(** X3. With nothing extracted the plan is empty, whatever the server
    holds; with nothing on the server nothing is deleted and the uploads
    are the records kept by the fold of the local list, one for each
    distinct content, in the order the contents first occur. *)
Theorem reconcile_with_an_empty_side local remote :
  reconcile [] remote = ([], [])
  /\ reconcile local [] = (map snd (by_content local), []).
Proof.
  split; rewrite reconcile_flat;
    change (by_content []) with (@nil (string * Memory)).
  - destruct (stale_local_no_local (by_content remote)) as [-> ->].
    reflexivity.
  - simpl. now rewrite only_local_no_server.
Qed.

Lemma nil_when_no_member {A : Type} (l : list A) :
  (forall x, ~ In x l) -> l = [].
Proof.
  destruct l as [|a rest]; [reflexivity|].
  intros Hno. exfalso. apply (Hno a). now left.
Qed.

Lemma reconcile_pair local remote :
  reconcile local remote
  = (fst (reconcile local remote), snd (reconcile local remote)).
Proof. now destruct (reconcile local remote). Qed.

Lemma empty_plan_iff local remote :
  reconcile local remote = ([], [])
  <-> forall r, In r local ->
        matched local remote (content r) /\ ~ stale local remote (content r).
Proof.
  split.
  - intros Hempty r Hr.
    assert (Hnot : ~ uploaded local remote r).
    { unfold uploaded, listed. rewrite Hempty. intros [x [[] _]]. }
    rewrite uploaded_iff in Hnot. pose proof (local_key _ _ Hr) as Hk.
    unfold matched. rewrite Hk.
    destruct (dict_contains (content r) (by_content remote)); tauto.
  - intros Hsync. rewrite reconcile_pair. f_equal; apply nil_when_no_member.
    + intros x Hx.
      assert (Hup : uploaded local remote x).
      { exists x. split; [assumption | now apply Memory_eq_content]. }
      pose proof (proj1 (plan_in_local local remote x) Hx) as Hin.
      destruct (Hsync x Hin) as [[_ Hm] Hns].
      apply uploaded_iff in Hup. destruct Hup as [_ [Hno | Hst]];
        [congruence | contradiction].
    + intros x Hx. apply in_deletions in Hx.
      destruct Hx as [Hs [l [Hl Hlt]]].
      destruct (by_content_get_content _ _ _ Hl) as [Hcl Hin].
      destruct (Hsync l Hin) as [_ Hns]. apply Hns. rewrite Hcl.
      exists l, x. auto.
Qed.

(** X4. The plan is empty exactly when every extracted record is matched
    on the server and not stale. *)
Theorem empty_plan_iff_in_sync local remote :
  reconcile local remote = ([], [])
  <-> forall r, In r local ->
        matched local remote (content r) /\ ~ stale local remote (content r).
Proof. apply empty_plan_iff. Qed.

(** ** The fold beyond the claims *)

Lemma fold_from_get_last_with mems : forall d c,
  dict_get c (fold_from d mems)
  = match last_with c mems with
    | Some m => Some m
    | None => dict_get c d
    end.
Proof.
  induction mems as [|x rest IH]; intros d c; simpl; [reflexivity|].
  rewrite IH. destruct (last_with c rest); [reflexivity|].
  destruct (String.eqb (content x) c) eqn:E.
  - apply String.eqb_eq in E. subst c. apply dict_get_set_same.
  - apply String.eqb_neq in E. apply dict_get_set_other. congruence.
Qed.

Lemma by_content_get_last_with mems c :
  dict_get c (by_content mems) = last_with c mems.
Proof.
  unfold by_content. fold (fold_from [] mems).
  rewrite fold_from_get_last_with. now destruct (last_with c mems).
Qed.

Lemma last_with_app c l1 l2 :
  last_with c (l1 ++ l2)
  = match last_with c l2 with
    | Some x => Some x
    | None => last_with c l1
    end.
Proof.
  induction l1 as [|m rest IH]; simpl.
  - now destruct (last_with c l2).
  - rewrite IH. now destruct (last_with c l2).
Qed.

Lemma last_with_Some c l m :
  last_with c l = Some m -> In m l /\ content m = c.
Proof.
  induction l as [|x rest IH]; simpl; [discriminate|].
  destruct (last_with c rest) as [y|].
  - intros [= <-]. destruct (IH eq_refl). auto.
  - destruct (String.eqb (content x) c) eqn:E; [|discriminate].
    intros [= <-]. apply String.eqb_eq in E. auto.
Qed.

Lemma last_with_None c l :
  last_with c l = None <-> ~ In c (map content l).
Proof.
  rewrite <- by_content_get_last_with. apply by_content_get_None.
Qed.

(** X5. Folding a list that continues another: under each content the
    dictionary keeps the record of the continuation when it has one of
    that content, and the record of the first part otherwise. *)
Theorem fold_of_appended_lists mems1 mems2 c :
  dict_get c (by_content (mems1 ++ mems2))
  = match dict_get c (by_content mems2) with
    | Some m => Some m
    | None => dict_get c (by_content mems1)
    end.
Proof. rewrite !by_content_get_last_with. apply last_with_app. Qed.

Lemma dict_set_fresh {V : Type} k (v : V) (d : pydict V) :
  ~ In k (dict_keys d) -> dict_set k v d = d ++ [(k, v)].
Proof.
  induction d as [|[k0 w] rest IH]; simpl; [reflexivity|].
  intros Hfresh. destruct (String.eqb k k0) eqn:E.
  - apply String.eqb_eq in E. exfalso. apply Hfresh. left. now symmetry.
  - rewrite IH; [reflexivity|]. intros Hin. apply Hfresh. now right.
Qed.

Lemma fold_from_rebuild (d : pydict Memory) : forall d0,
  keyed_by_content d ->
  NoDup (dict_keys (d0 ++ d)) ->
  fold_from d0 (map snd d) = d0 ++ d.
Proof.
  induction d as [|[k v] rest IH]; intros d0 Hk Hnd; simpl.
  - now rewrite app_nil_r.
  - assert (Hkv : content v = k) by (apply Hk; now left).
    rewrite Hkv, dict_set_fresh.
    + change (fold_left (fun d mem => dict_set (content mem) mem d)
                (map snd rest) (d0 ++ [(k, v)]))
        with (fold_from (d0 ++ [(k, v)]) (map snd rest)).
      rewrite IH.
      * now rewrite <- app_assoc.
      * intros k' m Hin. apply Hk. now right.
      * now rewrite <- app_assoc.
    + unfold dict_keys in Hnd. rewrite map_app in Hnd. simpl in Hnd.
      apply NoDup_remove_2 in Hnd. intros Hin. apply Hnd.
      apply in_or_app. now left.
Qed.

(** X6. Folding is idempotent: the records that the dictionary keeps, in
    its order, fold into the same dictionary again. *)
Theorem fold_of_kept_records_is_the_fold mems :
  by_content (map snd (by_content mems)) = by_content mems.
Proof.
  unfold by_content at 1. fold (fold_from [] (map snd (by_content mems))).
  rewrite fold_from_rebuild; [reflexivity | apply by_content_keyed |].
  apply by_content_NoDup.
Qed.

(** ** The order of the inputs *)

Lemma NoDup_map_injective {A B : Type} (f : A -> B) (l : list A) a b :
  NoDup (map f l) -> In a l -> In b l -> f a = f b -> a = b.
Proof.
  induction l as [|x rest IH]; simpl; [tauto|].
  intros Hnd Ha Hb Hf. inversion Hnd as [|? ? Hfresh Hrest]; subst.
  destruct Ha as [-> | Ha], Hb as [-> | Hb]; auto.
  - exfalso. apply Hfresh. rewrite Hf. now apply in_map.
  - exfalso. apply Hfresh. rewrite <- Hf. now apply in_map.
Qed.

Lemma by_content_get_distinct mems c m :
  NoDup (map content mems) ->
  (dict_get c (by_content mems) = Some m <-> In m mems /\ content m = c).
Proof.
  intros Hnd. split.
  - intros Hg. apply by_content_get_content in Hg. tauto.
  - intros [Hin Hc]. rewrite by_content_get_last_with.
    destruct (last_with c mems) as [x|] eqn:E.
    + apply last_with_Some in E. destruct E as [Hx Hcx]. f_equal.
      apply (NoDup_map_injective content mems); congruence.
    + apply last_with_None in E. exfalso. apply E. subst c. now apply in_map.
Qed.

Lemma in_uploads_distinct local remote x :
  NoDup (map content local) -> NoDup (map content remote) ->
  (In x (fst (reconcile local remote))
   <-> In x local
       /\ forall s, In s remote -> content s = content x ->
                    created_at x < created_at s).
Proof.
  intros Hl Hr. rewrite in_uploads, (by_content_get_distinct local) by assumption.
  split.
  - intros [[Hin _] Hm]. split; [assumption|]. intros s Hs Hc.
    assert (Hg : dict_get (content x) (by_content remote) = Some s)
      by (apply by_content_get_distinct; auto).
    now rewrite Hg in Hm.
  - intros [Hin Hall]. split; [auto|].
    destruct (dict_get (content x) (by_content remote)) as [s|] eqn:Es; [|exact I].
    apply by_content_get_distinct in Es; [|assumption].
    destruct Es as [Hs Hc]. now apply Hall.
Qed.

Lemma in_deletions_distinct local remote x :
  NoDup (map content local) -> NoDup (map content remote) ->
  (In x (snd (reconcile local remote))
   <-> In x remote
       /\ exists l, In l local /\ content l = content x
                    /\ created_at l < created_at x).
Proof.
  intros Hl Hr. rewrite in_deletions, (by_content_get_distinct remote) by assumption.
  split.
  - intros [[Hin _] [l [Hg Hlt]]]. split; [assumption|].
    apply by_content_get_distinct in Hg; [|assumption].
    exists l. tauto.
  - intros [Hin [l [Hlin [Hc Hlt]]]]. split; [auto|].
    exists l. split; [|assumption]. apply by_content_get_distinct; auto.
Qed.

Lemma plan_contents_NoDup local remote :
  NoDup (map content (fst (reconcile local remote)))
  /\ NoDup (map content (snd (reconcile local remote))).
Proof.
  rewrite reconcile_flat; simpl. split.
  - rewrite map_app.
    destruct (flat_map_contents_NoDup_on
                (stale_local (by_content local)) (by_content remote))
      as [Hnd1 Hin1];
      [intros item _; apply stale_local_shape, by_content_keyed
      | apply by_content_NoDup |].
    destruct (flat_map_contents_NoDup_on
                (only_local (by_content remote)) (by_content local))
      as [Hnd2 _];
      [apply only_local_shape, by_content_keyed | apply by_content_NoDup |].
    apply NoDup_app; [assumption | assumption |].
    intros c Hc1 Hc2. apply Hin1 in Hc1.
    apply in_map_iff in Hc2. destruct Hc2 as [x [<- Hx]].
    apply in_only_local in Hx. destruct Hx as [_ Hnone].
    apply dict_get_None in Hnone. contradiction.
  - apply (flat_map_contents_NoDup_on
             (stale_server (by_content local)) (by_content remote));
      [apply stale_server_shape, by_content_keyed | apply by_content_NoDup].
Qed.

(** X7. When no two extracted records and no two fetched records share a
    content, the order of the two lists does not matter: the same records
    listed in another order give the same uploads and the same deletions,
    in some order. *)
Theorem plan_of_reordered_inputs local remote local' remote' :
  NoDup (map content local) ->
  NoDup (map content remote) ->
  Permutation local local' ->
  Permutation remote remote' ->
  Permutation (fst (reconcile local remote)) (fst (reconcile local' remote'))
  /\ Permutation (snd (reconcile local remote)) (snd (reconcile local' remote')).
Proof.
  intros Hl Hr Pl Pr.
  assert (Hl' : NoDup (map content local'))
    by (eapply Permutation_NoDup; [apply Permutation_map, Pl | assumption]).
  assert (Hr' : NoDup (map content remote'))
    by (eapply Permutation_NoDup; [apply Permutation_map, Pr | assumption]).
  destruct (plan_contents_NoDup local remote) as [Hu Hd].
  destruct (plan_contents_NoDup local' remote') as [Hu' Hd'].
  split; apply NoDup_Permutation;
    try (eapply NoDup_map_inv; eassumption).
  - intros x. rewrite !in_uploads_distinct by assumption. split.
    + intros [Hin Hall]. split; [now apply (Permutation_in _ Pl)|].
      intros s Hs. apply Hall. now apply (Permutation_in _ (Permutation_sym Pr)).
    + intros [Hin Hall]. split; [now apply (Permutation_in _ (Permutation_sym Pl))|].
      intros s Hs. apply Hall. now apply (Permutation_in _ Pr).
  - intros x. rewrite !in_deletions_distinct by assumption. split.
    + intros [Hin [l [Hlin Hrest]]]. split; [now apply (Permutation_in _ Pr)|].
      exists l. split; [now apply (Permutation_in _ Pl) | assumption].
    + intros [Hin [l [Hlin Hrest]]].
      split; [now apply (Permutation_in _ (Permutation_sym Pr))|].
      exists l. split; [now apply (Permutation_in _ (Permutation_sym Pl)) | assumption].
Qed.

Lemma plan_of_reordered_inputs_witness :
  Permutation
    (fst (reconcile [mem "a" 1 None; mem "b" 2 None] [mem "b" 9 (Some "s1")]))
    (fst (reconcile [mem "b" 2 None; mem "a" 1 None] [mem "b" 9 (Some "s1")]))
  /\ Permutation
       (snd (reconcile [mem "a" 1 None; mem "b" 2 None] [mem "b" 9 (Some "s1")]))
       (snd (reconcile [mem "b" 2 None; mem "a" 1 None] [mem "b" 9 (Some "s1")])).
Proof.
  apply (plan_of_reordered_inputs
           [mem "a" 1 None; mem "b" 2 None] [mem "b" 9 (Some "s1")]
           [mem "b" 2 None; mem "a" 1 None] [mem "b" 9 (Some "s1")]).
  - simpl. repeat constructor; simpl; intuition discriminate.
  - simpl. repeat constructor; simpl; intuition discriminate.
  - apply perm_swap.
  - apply Permutation_refl.
Defined.

(** ** A plan that went through *)

Lemma same_id_eq a b : same_id a b = true <-> a = b.
Proof.
  destruct a as [x|], b as [y|]; simpl; try (split; [discriminate | discriminate]);
    try tauto.
  rewrite String.eqb_eq. split; [now intros -> | now intros [= ->]].
Qed.

Lemma id_deleted_true deletions s :
  id_deleted deletions s = true
  <-> exists d, In d deletions /\ server_id d = server_id s.
Proof.
  unfold id_deleted. rewrite existsb_exists. split.
  - intros [i [Hin Hsame]]. apply in_map_iff in Hin.
    destruct Hin as [d [<- Hd]]. apply same_id_eq in Hsame.
    exists d. auto.
  - intros [d [Hd Hid]]. exists (server_id d). split.
    + now apply in_map.
    + apply same_id_eq. congruence.
Qed.

Lemma last_with_filter c (keep : Memory -> bool) l :
  (forall m, In m l -> content m = c -> keep m = true) ->
  last_with c (filter keep l) = last_with c l.
Proof.
  induction l as [|x rest IH]; intros Hkeep; simpl; [reflexivity|].
  assert (IH' : last_with c (filter keep rest) = last_with c rest)
    by (apply IH; intros m Hm; apply Hkeep; now right).
  destruct (keep x) eqn:Ek; simpl; rewrite IH'; [reflexivity|].
  destruct (last_with c rest); [reflexivity|].
  destruct (String.eqb (content x) c) eqn:E; [|reflexivity].
  apply String.eqb_eq in E. rewrite (Hkeep x) in Ek; [discriminate | now left | assumption].
Qed.

Lemma stored_contents uploads stored :
  Forall2 stored_as uploads stored ->
  forall s, In s stored -> exists u, In u uploads /\ stored_as u s.
Proof.
  induction 1 as [|u s us ss Hus _ IH]; intros x; simpl; [tauto|].
  intros [<- | Hx].
  - exists u. auto.
  - destruct (IH x Hx) as [u' [Hu' Hs']]. exists u'. auto.
Qed.

Lemma stored_covers uploads stored :
  Forall2 stored_as uploads stored ->
  forall u, In u uploads -> exists s, In s stored /\ stored_as u s.
Proof.
  induction 1 as [|u s us ss Hus _ IH]; intros x; simpl; [tauto|].
  intros [<- | Hx].
  - exists s. auto.
  - destruct (IH x Hx) as [s' [Hs' Hu']]. exists s'. auto.
Qed.

(** X8. A plan that went through is not planned again. Let the fetched
    records have pairwise distinct ids, and let the server afterwards list
    the records it had, without those whose ids were deleted, followed by
    one record for each upload with the content and created_at that the
    upload sent. Reconciling the same extracted records with that list
    plans nothing. *)
Theorem applied_plan_is_not_planned_again local remote stored :
  NoDup (map server_id remote) ->
  Forall2 stored_as (fst (reconcile local remote)) stored ->
  reconcile local (after_plan remote (snd (reconcile local remote)) stored)
  = ([], []).
Proof.
  intros Hids Hstored. apply empty_plan_iff. intros r Hr.
  set (remote' := after_plan remote (snd (reconcile local remote)) stored).
  pose proof (local_key _ _ Hr) as Hk.
  destruct (dict_get (content r) (by_content local)) as [l|] eqn:El;
    [|unfold dict_contains in Hk; rewrite El in Hk; discriminate].
  destruct (by_content_get_content _ _ _ El) as [Hcl Hlin].
  assert (Hget : exists s, dict_get (content r) (by_content remote') = Some s
                           /\ created_at s <= created_at l).
  { unfold remote', after_plan.
    rewrite by_content_get_last_with, last_with_app.
    destruct (last_with (content r) stored) as [s|] eqn:Es.
    - apply last_with_Some in Es. destruct Es as [Hs Hcs].
      destruct (stored_contents _ _ Hstored s Hs) as [u [Hu [Hcu Htu]]].
      apply in_uploads in Hu. destruct Hu as [Hlu _].
      assert (u = l) by congruence. subst u.
      exists s. split; [reflexivity | lia].
    - assert (Hnotup : ~ uploaded local remote r).
      { intros [u [Hu Heq]]. apply Memory_eq_content in Heq.
        destruct (stored_covers _ _ Hstored u Hu) as [s [Hs [Hcs _]]].
        apply last_with_None in Es. apply Es.
        rewrite Heq, <- Hcs. now apply in_map. }
      rewrite uploaded_iff, Hk in Hnotup.
      destruct (dict_get (content r) (by_content remote)) as [s|] eqn:Esd.
      + assert (Hns : ~ stale local remote (content r)) by tauto.
        rewrite last_with_filter; [rewrite <- by_content_get_last_with, Esd|].
        * exists s. split; [reflexivity|].
          destruct (Z_lt_dec (created_at l) (created_at s)) as [Hlt|]; [|lia].
          exfalso. apply Hns. exists l, s. auto.
        * intros m Hm Hcm.
          destruct (id_deleted (snd (reconcile local remote)) m) eqn:Edel;
            [|reflexivity].
          exfalso. apply id_deleted_true in Edel.
          destruct Edel as [d [Hd Hid]].
          pose proof (proj2 (plan_in_local local remote d) Hd) as Hdin.
          assert (d = m)
            by (apply (NoDup_map_injective server_id remote); assumption).
          subst d. apply Hns. rewrite <- Hcm.
          apply deleted_iff. exists m. split; [assumption|].
          now apply Memory_eq_content.
      + exfalso. apply Hnotup. split; [reflexivity|]. left.
        unfold dict_contains. now rewrite Esd. }
  destruct Hget as [s [Hs Hle]]. split.
  - unfold matched, dict_contains. fold remote'. now rewrite El, Hs.
  - intros [l' [s' [Hl' [Hs' Hlt]]]]. fold remote' in Hs'.
    assert (l' = l) by congruence. assert (s' = s) by congruence.
    subst. lia.
Qed.

Lemma applied_plan_is_not_planned_again_witness :
  reconcile [mem "likes tea" 50 None; mem "has a cat" 60 None]
    (after_plan [mem "likes tea" 100 (Some "s1")]
       (snd (reconcile [mem "likes tea" 50 None; mem "has a cat" 60 None]
               [mem "likes tea" 100 (Some "s1")]))
       [mem "likes tea" 50 (Some "s2"); mem "has a cat" 60 (Some "s3")])
  = ([], []).
Proof.
  apply (applied_plan_is_not_planned_again
           [mem "likes tea" 50 None; mem "has a cat" 60 None]
           [mem "likes tea" 100 (Some "s1")]
           [mem "likes tea" 50 (Some "s2"); mem "has a cat" 60 (Some "s3")]).
  - simpl. repeat constructor. simpl. tauto.
  - simpl. repeat constructor.
Defined.

(** ** [process_conversation] beyond the claims *)

Lemma for_each_app {A S : Type} (body : S -> A -> M S) (xs ys : list A) :
  forall s n,
    for_each body (xs ++ ys) s n
    = match for_each body xs s n with
      | (Ok s', n') => for_each body ys s' n'
      | (Raise e, n') => (Raise e, n')
      end.
Proof.
  induction xs as [|x rest IH]; intros s n; simpl; [reflexivity|].
  unfold bind. destruct (body s x n) as [[s1|e] n1]; [apply IH | reflexivity].
Qed.

Lemma for_each_raises {A S : Type} (body : S -> A -> M S) (P : exn -> Prop)
    (xs : list A) :
  (forall s x n e n', In x xs -> body s x n = (Raise e, n') -> P e) ->
  forall s n e n', for_each body xs s n = (Raise e, n') -> P e.
Proof.
  induction xs as [|x rest IH]; intros Hbody s n e n' Hrun; simpl in Hrun.
  - discriminate.
  - unfold bind in Hrun. destruct (body s x n) as [[s1|e1] n1] eqn:E.
    + apply (IH (fun s0 x0 n0 e0 n0' Hin => Hbody s0 x0 n0 e0 n0' (or_intror Hin))
               s1 n1 e n' Hrun).
    + injection Hrun as <- _. apply (Hbody s x n e1 n1); [now left | assumption].
Qed.

Lemma py_get_raises v key default e :
  py_get v key default = Raise e -> e = AttributeError.
Proof.
  destruct v; simpl; try (now intros [= <-]).
  destruct (dict_get key entries); discriminate.
Qed.

Lemma int_of_float_raises f e :
  int_of_float f = Raise e -> e = ValueError \/ e = OverflowError.
Proof. destruct f; simpl; intros [= <-]; auto. Qed.

Lemma float_of_int_raises z e :
  float_of_int z = Raise e -> e = OverflowError.
Proof.
  unfold float_of_int. destruct (binary_normalize 53 1024 z 0 false);
    now intros [= <-].
Qed.

Section ExtractionEdges.
Context `{Runtime}.

Lemma py_int_raises v e :
  py_int v = Raise e -> e = TypeError \/ e = ValueError \/ e = OverflowError.
Proof.
  destruct v; simpl; try (intros [= <-]; auto); try discriminate.
  - intros Hr. apply int_of_float_raises in Hr. tauto.
  - destruct (int_of_str s); [discriminate | intros [= <-]; auto].
Qed.

Lemma py_float_raises v e :
  py_float v = Raise e -> e = TypeError \/ e = ValueError \/ e = OverflowError.
Proof.
  destruct v; simpl; try (intros [= <-]; auto); try discriminate.
  - intros Hr. apply float_of_int_raises in Hr. auto.
  - intros Hr. apply float_of_int_raises in Hr. auto.
  - destruct (float_of_str s); [discriminate | intros [= <-]; auto].
Qed.

Lemma Memory_init_raises c ca ua w md sid e :
  Memory_init c ca ua w md sid = Raise e -> e = ValidationError.
Proof.
  unfold Memory_init.
  destruct (validate_str c), (validate_int ca), (validate_int ua),
    (validate_optional validate_float w), (validate_optional validate_str md),
    (validate_optional validate_str sid); try discriminate; now intros [= <-].
Qed.

Lemma time_or_now_raises t n e n' :
  time_or_now t n = (Raise e, n') ->
  e = TypeError \/ e = ValueError \/ e = OverflowError.
Proof.
  unfold time_or_now, now, lift. destruct (truthy t); [|discriminate].
  intros [= Hr _]. now apply py_int_raises in Hr.
Qed.

Lemma new_memory_raises mc ct ut w md n e n' :
  new_memory mc ct ut w md n = (Raise e, n') ->
  e = TypeError \/ e = ValueError \/ e = OverflowError \/ e = ValidationError.
Proof.
  unfold new_memory, bind. intros Hrun.
  destruct (time_or_now ct n) as [[created|e1] n1] eqn:E1.
  2:{ injection Hrun as <- _. apply time_or_now_raises in E1. tauto. }
  destruct (time_or_now ut n1) as [[updated|e2] n2] eqn:E2.
  2:{ injection Hrun as <- _. apply time_or_now_raises in E2. tauto. }
  destruct (float_or_none w n2) as [[wv|e3] n3] eqn:E3.
  2:{ injection Hrun as <- _. unfold float_or_none, bind, lift, ret in E3.
      destruct w; try discriminate;
        match type of E3 with
        | context [py_float ?x] =>
            destruct (py_float x) eqn:Ef; [discriminate|];
            injection E3 as <- _; apply py_float_raises in Ef; tauto
        end. }
  unfold lift in Hrun. injection Hrun as Hinit _.
  apply Memory_init_raises in Hinit. tauto.
Qed.

Lemma process_message_raises memories msg_data n e n' :
  process_message memories msg_data n = (Raise e, n') ->
  e = AttributeError \/ e = TypeError \/ e = ValueError \/ e = OverflowError.
Proof.
  unfold process_message. intros Hrun.
  destruct (truthy msg_data); simpl in Hrun; [|discriminate].
  unfold bind at 1, lift at 1 in Hrun.
  destruct (py_get msg_data "message" VNone) as [message|e0] eqn:E0.
  2:{ injection Hrun as <- _. apply py_get_raises in E0. auto. }
  destruct (truthy message); simpl in Hrun; [|discriminate].
  unfold bind at 1, lift at 1 in Hrun.
  destruct (py_get message "recipient" VNone) as [recipient|e1] eqn:E1.
  2:{ injection Hrun as <- _. apply py_get_raises in E1. auto. }
  destruct (eq_str recipient "bio"); [|discriminate].
  unfold bind at 1, lift at 1 in Hrun.
  destruct (py_get message "content" (VDict [])) as [cf|e2] eqn:E2.
  2:{ injection Hrun as <- _. apply py_get_raises in E2. auto. }
  unfold bind at 1, lift at 1 in Hrun.
  destruct (py_get cf "parts" (VList [])) as [p|e3] eqn:E3.
  2:{ injection Hrun as <- _. apply py_get_raises in E3. auto. }
  unfold bind at 1, lift at 1, py_join in Hrun.
  destruct (str_items p) as [items|].
  2:{ injection Hrun as <- _. auto. }
  unfold bind at 1, lift at 1 in Hrun.
  destruct (py_get message "create_time" VNone) as [ct|e4] eqn:E4.
  2:{ injection Hrun as <- _. apply py_get_raises in E4. auto. }
  unfold bind at 1, lift at 1 in Hrun.
  destruct (py_get message "update_time" VNone) as [ut|e5] eqn:E5.
  2:{ injection Hrun as <- _. apply py_get_raises in E5. auto. }
  unfold bind at 1, lift at 1 in Hrun.
  destruct (py_get message "weight" VNone) as [w|e6] eqn:E6.
  2:{ injection Hrun as <- _. apply py_get_raises in E6. auto. }
  unfold bind at 1, lift at 1 in Hrun.
  destruct (py_get message "metadata" (VDict [])) as [md|e7] eqn:E7.
  2:{ injection Hrun as <- _. apply py_get_raises in E7. auto. }
  unfold bind at 1, lift at 1 in Hrun.
  destruct (py_get md "model_slug" VNone) as [ms|e8] eqn:E8.
  2:{ injection Hrun as <- _. apply py_get_raises in E8. auto. }
  unfold try_except, bind, ret in Hrun.
  destruct (new_memory (join newline items) ct ut w ms n) as [[m|e9] n1] eqn:E9;
    [discriminate|].
  apply new_memory_raises in E9.
  destruct (is_ValidationError e9) eqn:Ev; [discriminate|].
  injection Hrun as <- _.
  destruct E9 as [-> | [-> | [-> | ->]]]; auto. discriminate.
Qed.

Lemma process_conversation_raises convo n e n' :
  process_conversation convo n = (Raise e, n') ->
  e = AttributeError \/ e = TypeError \/ e = ValueError \/ e = OverflowError.
Proof.
  unfold process_conversation. intros Hrun.
  unfold bind at 1, lift at 1 in Hrun.
  destruct (py_get convo "mapping" (VDict [])) as [mf|e0] eqn:E0.
  2:{ injection Hrun as <- _. apply py_get_raises in E0. auto. }
  unfold bind at 1, lift at 1 in Hrun.
  destruct (py_items mf) as [mapping|e1] eqn:E1.
  2:{ injection Hrun as <- _. destruct mf; simpl in E1; try discriminate;
      injection E1 as <-; auto. }
  unfold bind, ret in Hrun.
  destruct (for_each _ mapping [] n) as [[ms|e2] n2] eqn:E2; [discriminate|].
  injection Hrun as <- _.
  refine (for_each_raises _
    (fun e => e = AttributeError \/ e = TypeError \/ e = ValueError
              \/ e = OverflowError)
    mapping _ [] n e2 n2 E2).
  intros s [key msg_data] n0 e0 n0' _ Hbody. simpl in Hbody.
  now apply process_message_raises in Hbody.
Qed.

(** X9. Whatever the conversation holds, [process_conversation] raises
    nothing but AttributeError, TypeError, ValueError or OverflowError: a
    ValidationError never leaves it. *)
Theorem process_conversation_exceptions convo n e n' :
  process_conversation convo n = (Raise e, n') ->
  (e = AttributeError \/ e = TypeError \/ e = ValueError \/ e = OverflowError)
  /\ e <> ValidationError.
Proof.
  intros Hrun. apply process_conversation_raises in Hrun.
  split; [assumption|].
  destruct Hrun as [-> | [-> | [-> | ->]]]; discriminate.
Qed.

End ExtractionEdges.

Lemma process_conversation_exceptions_witness :
  (TypeError = AttributeError \/ TypeError = TypeError
   \/ TypeError = ValueError \/ TypeError = OverflowError)
  /\ TypeError <> ValidationError.
Proof.
  apply (@process_conversation_exceptions sample_runtime
           convo_bad_create_time 0%nat TypeError 0%nat).
  reflexivity.
Defined.

Section ExtractionShape.
Context `{Runtime}.

Lemma Memory_init_all c ca ua w md sid m :
  Memory_init c ca ua w md sid = Ok m ->
  validate_str c = Some (content m)
  /\ validate_int ca = Some (created_at m)
  /\ validate_int ua = Some (updated_at m)
  /\ validate_optional validate_float w = Some (weight m)
  /\ validate_optional validate_str md = Some (model m)
  /\ validate_optional validate_str sid = Some (server_id m).
Proof.
  unfold Memory_init.
  destruct (validate_str c), (validate_int ca), (validate_int ua),
    (validate_optional validate_float w), (validate_optional validate_str md),
    (validate_optional validate_str sid); try discriminate.
  intros [= <-]. simpl. auto 10.
Qed.

(** X10. The shape of the conversation. A conversation that is not an
    object raises AttributeError; one without "mapping" gives no record
    and the count 0; one whose "mapping" is anything but an object, null
    included, raises AttributeError. No clock is read in any of the three
    cases. *)
Theorem conversation_shape_edges n :
  (forall convo, (forall d, convo <> VDict d) ->
     process_conversation convo n = (Raise AttributeError, n))
  /\ (forall d, dict_get "mapping" d = None ->
        process_conversation (VDict d) n = (Ok ([], 0), n))
  /\ (forall d v, dict_get "mapping" d = Some v ->
        (forall nodes, v <> VDict nodes) ->
        process_conversation (VDict d) n = (Raise AttributeError, n)).
Proof.
  unfold process_conversation. split; [|split].
  - intros convo Hnot. unfold bind, lift.
    destruct convo; simpl; try reflexivity. now destruct (Hnot entries).
  - intros d Hd. unfold bind, lift, ret. simpl. rewrite Hd. reflexivity.
  - intros d v Hd Hnot. unfold bind, lift. simpl. rewrite Hd.
    destruct v; simpl; try reflexivity. now destruct (Hnot entries).
Qed.

Lemma for_each_process_message_length mapping : forall acc n memories n',
  for_each (fun memories (item : string * value) =>
              process_message memories (snd item))
    mapping acc n = (Ok memories, n') ->
  (List.length memories <= List.length acc + List.length mapping)%nat.
Proof.
  induction mapping as [|[key msg_data] rest IH]; intros acc n memories n' Hrun;
    simpl in Hrun.
  - unfold ret in Hrun. injection Hrun as <- _. simpl. lia.
  - unfold bind in Hrun.
    destruct (process_message acc msg_data n) as [[acc'|e] n1] eqn:E;
      [|discriminate].
    apply IH in Hrun. simpl.
    destruct (process_message_adds _ _ _ _ _ E) as [-> | [m [p [items [-> _]]]]].
    + lia.
    + rewrite length_app in Hrun. simpl in Hrun. lia.
Qed.

(** X11. A conversation that is processed gives at most one record for
    each node of its mapping, and its message count is the number of
    nodes, "bio" or not. *)
Theorem records_and_count_bounded_by_mapping convo n memories count n' :
  process_conversation convo n = (Ok (memories, count), n') ->
  exists mapping,
    py_get convo "mapping" (VDict []) = Ok (VDict mapping)
    /\ count = Z.of_nat (List.length mapping)
    /\ (List.length memories <= List.length mapping)%nat.
Proof.
  unfold process_conversation. intros Hrun.
  run_lift Hrun (py_get convo "mapping" (VDict [])) mf Emf.
  run_lift Hrun (py_items mf) mapping Eitems.
  destruct mf; try discriminate. injection Eitems as ->.
  unfold bind, ret in Hrun.
  destruct (for_each _ mapping [] n) as [[ms|?] n1] eqn:Eloop; [|discriminate].
  injection Hrun as <- <- _.
  exists mapping. repeat split.
  apply for_each_process_message_length in Eloop. simpl in Eloop. exact Eloop.
Qed.

(** X12. One node that raises brings the conversation down. If the nodes
    before it are processed without exception and the node itself raises,
    the conversation raises that exception, whatever records the nodes
    before gave and whatever nodes come after. *)
Theorem one_raising_node_aborts_conversation
    before key bad after n memories count n1 e n2 :
  process_conversation (convo_of before) n = (Ok (memories, count), n1) ->
  process_message memories bad n1 = (Raise e, n2) ->
  process_conversation (convo_of (before ++ (key, bad) :: after)) n
  = (Raise e, n2).
Proof.
  unfold process_conversation, convo_of. simpl.
  unfold bind at 1 2, lift. simpl. unfold bind at 1 2, lift. simpl.
  intros Hbefore Hbad. unfold bind, ret in *.
  rewrite for_each_app.
  destruct (for_each _ before [] n) as [[ms|?] n0]; [|discriminate].
  injection Hbefore as -> _ ->. simpl. unfold bind. now rewrite Hbad.
Qed.

Lemma time_or_now_value t n z n' :
  time_or_now t n = (Ok z, n') ->
  (if truthy t then py_int t = Ok z /\ n' = n
   else z = clock n /\ n' = S n).
Proof.
  unfold time_or_now, now, lift. destruct (truthy t).
  - intros [= -> ->]. auto.
  - intros [= <- <-]. auto.
Qed.

(** X13. The fields of an extracted record. created_at is
    [int(create_time)] when create_time is truthy and a reading of the
    clock otherwise, so also for 0, 0.0 and the empty string; updated_at
    likewise; weight is [float(weight)] unless weight is null; model is
    the model_slug as pydantic takes it when it is truthy and None
    otherwise, so also for the empty string. *)
Theorem new_memory_fields_from_message mc ct ut w md n m n' :
  new_memory mc ct ut w md n = (Ok m, n') ->
  (if truthy ct then py_int ct = Ok (created_at m)
   else created_at m = clock n)
  /\ (if truthy ut then py_int ut = Ok (updated_at m)
      else updated_at m = clock (if truthy ct then n else S n))
  /\ match w with
     | VNone => weight m = None
     | _ => exists f, py_float w = Ok f /\ weight m = Some f
     end
  /\ (if truthy md then exists s, validate_str md = Some s /\ model m = Some s
      else model m = None).
Proof.
  unfold new_memory, bind, lift. intros Hrun.
  destruct (time_or_now ct n) as [[created|?] n1] eqn:E1; [|discriminate].
  destruct (time_or_now ut n1) as [[updated|?] n2] eqn:E2; [|discriminate].
  destruct (float_or_none w n2) as [[wv|?] n3] eqn:E3; [|discriminate].
  injection Hrun as Hinit _.
  apply Memory_init_all in Hinit.
  destruct Hinit as [_ [Hca [Hua [Hw [Hmd _]]]]].
  rewrite validate_int_int in Hca, Hua.
  injection Hca as <-. injection Hua as <-.
  apply time_or_now_value in E1, E2.
  split; [|split; [|split]].
  - destruct (truthy ct); tauto.
  - destruct (truthy ut); [tauto|]. destruct E2 as [-> _].
    destruct (truthy ct); destruct E1 as [_ ->]; reflexivity.
  - unfold float_or_none, bind, lift, ret in E3.
    destruct w; try (injection E3 as <- _; simpl in Hw; congruence);
      match type of E3 with
      | context [py_float ?x] =>
          destruct (py_float x) as [fw|] eqn:Ef; [|discriminate];
          injection E3 as <- _; exists fw; split; [reflexivity|];
          simpl in Hw; rewrite validate_float_float in Hw; simpl in Hw;
          congruence
      end.
  - destruct (truthy md) eqn:Et.
    + destruct md; simpl in Et; try discriminate; simpl in Hmd;
        match type of Hmd with
        | context [validate_str ?x] =>
            destruct (validate_str x) as [slug|]; [|discriminate];
            exists slug; split; [reflexivity|]; simpl in Hmd; congruence
        end.
    + simpl in Hmd. congruence.
Qed.

Lemma process_message_node_of acc m n :
  created_at m <> 0 -> updated_at m <> 0 -> model m <> Some "" ->
  server_id m = None ->
  process_message acc (node_of m) n = (Ok (acc ++ [m])%list, n).
Proof.
  destruct m as [c ca ua w md sid]; simpl. intros Hca Hua Hmd ->.
  unfold process_message, node_of. simpl.
  unfold bind, lift, try_except, new_memory, time_or_now, ret. simpl.
  apply Z.eqb_neq in Hca, Hua. rewrite Hca, Hua. simpl.
  unfold bind, lift, float_or_none, ret, Memory_init.
  rewrite validate_str_str, !validate_int_int.
  destruct w as [f|], md as [s|]; simpl; unfold bind, lift, ret; simpl;
    rewrite ?validate_float_float.
  - destruct (String.eqb s "") eqn:E;
      [apply String.eqb_eq in E; subst; congruence|].
    simpl. now rewrite validate_str_str.
  - reflexivity.
  - destruct (String.eqb s "") eqn:E;
      [apply String.eqb_eq in E; subst; congruence|].
    simpl. now rewrite validate_str_str.
  - reflexivity.
Qed.

Lemma for_each_nodes_of nodes : forall acc n,
  Forall (fun km : string * Memory =>
            created_at (snd km) <> 0 /\ updated_at (snd km) <> 0
            /\ model (snd km) <> Some "" /\ server_id (snd km) = None) nodes ->
  for_each (fun memories (item : string * value) =>
              process_message memories (snd item))
    (map (fun km : string * Memory => (fst km, node_of (snd km))) nodes) acc n
  = (Ok (acc ++ map snd nodes)%list, n).
Proof.
  induction nodes as [|[k m] rest IH]; intros acc n Hall; simpl.
  - unfold ret. now rewrite app_nil_r.
  - inversion Hall as [|? ? [Hca [Hua [Hmd Hsid]]] Hrest]; subst.
    simpl in *. unfold bind.
    rewrite process_message_node_of by assumption.
    rewrite IH by assumption. now rewrite <- app_assoc.
Qed.

(** X14. Extraction gives back what a mapping carries. For records with
    non-zero timestamps, a model that is not the empty string and no
    server id, the mapping whose nodes are "bio" messages with the
    record's content as the one part, its timestamps, weight and model is
    extracted into exactly these records, in the order of the mapping,
    without a reading of the clock. *)
Theorem extraction_of_carried_records nodes n :
  Forall (fun km : string * Memory =>
            created_at (snd km) <> 0 /\ updated_at (snd km) <> 0
            /\ model (snd km) <> Some "" /\ server_id (snd km) = None) nodes ->
  process_conversation
    (convo_of (map (fun km : string * Memory => (fst km, node_of (snd km))) nodes)) n
  = (Ok (map snd nodes, Z.of_nat (List.length nodes)), n).
Proof.
  intros Hall. unfold process_conversation, convo_of. simpl.
  unfold bind at 1, lift at 1. simpl. unfold bind at 1, lift at 1. simpl.
  unfold bind, ret. rewrite for_each_nodes_of by assumption.
  simpl. now rewrite length_map.
Qed.

End ExtractionShape.

Lemma conversation_shape_edges_witness :
  @process_conversation sample_runtime VNone 0%nat = (Raise AttributeError, 0%nat)
  /\ @process_conversation sample_runtime (VDict [("title", VStr "chat")]) 0%nat
     = (Ok ([], 0), 0%nat)
  /\ @process_conversation sample_runtime (VDict [("mapping", VNone)]) 0%nat
     = (Raise AttributeError, 0%nat).
Proof.
  destruct (@conversation_shape_edges sample_runtime 0%nat)
    as [Hnot [Hmissing Hbad]].
  split; [|split].
  - apply Hnot. discriminate.
  - apply Hmissing. reflexivity.
  - apply (Hbad _ VNone); [reflexivity | discriminate].
Defined.

Lemma records_and_count_bounded_by_mapping_witness :
  exists mapping,
    py_get convo_bad_model "mapping" (VDict []) = Ok (VDict mapping)
    /\ 2 = Z.of_nat (List.length mapping)
    /\ (List.length [Build_Memory "has a cat" 100 200 None (Some "gpt-4") None]
        <= List.length mapping)%nat.
Proof.
  apply (@records_and_count_bounded_by_mapping sample_runtime
           convo_bad_model 0%nat
           [Build_Memory "has a cat" 100 200 None (Some "gpt-4") None] 2 0%nat).
  reflexivity.
Defined.

Lemma one_raising_node_aborts_conversation_witness :
  @process_conversation sample_runtime
    (convo_of ([("m1", bio_node (VList [VStr "likes tea"]) (VInt 100) (VStr "gpt-4"))]
               ++ ("m2", bio_node (VList [VStr "has a cat"]) (VList [VInt 1])
                           (VStr "gpt-4"))
                  :: [("m3", VNone)]))
    0%nat
  = (Raise TypeError, 0%nat).
Proof.
  apply (@one_raising_node_aborts_conversation sample_runtime
           [("m1", bio_node (VList [VStr "likes tea"]) (VInt 100) (VStr "gpt-4"))]
           "m2" (bio_node (VList [VStr "has a cat"]) (VList [VInt 1]) (VStr "gpt-4"))
           [("m3", VNone)] 0%nat
           [Build_Memory "likes tea" 100 200 None (Some "gpt-4") None] 1 0%nat
           TypeError 0%nat); reflexivity.
Defined.

Lemma new_memory_fields_from_message_witness :
  (if truthy (VInt 0)
   then @py_int sample_runtime (VInt 0)
        = Ok (created_at (Build_Memory "likes tea" 1700000000 7 None None None))
   else created_at (Build_Memory "likes tea" 1700000000 7 None None None)
        = @clock sample_runtime 0%nat)
  /\ (if truthy (VFloat (S754_finite false 7 0))
      then @py_int sample_runtime (VFloat (S754_finite false 7 0))
           = Ok (updated_at (Build_Memory "likes tea" 1700000000 7 None None None))
      else updated_at (Build_Memory "likes tea" 1700000000 7 None None None)
           = @clock sample_runtime (if truthy (VInt 0) then 0%nat else 1%nat))
  /\ weight (Build_Memory "likes tea" 1700000000 7 None None None) = None
  /\ (if truthy (VStr "")
      then exists s, @validate_str sample_runtime (VStr "") = Some s
                     /\ model (Build_Memory "likes tea" 1700000000 7 None None None)
                        = Some s
      else model (Build_Memory "likes tea" 1700000000 7 None None None) = None).
Proof.
  apply (@new_memory_fields_from_message sample_runtime
           "likes tea" (VInt 0) (VFloat (S754_finite false 7 0)) VNone (VStr "")
           0%nat (Build_Memory "likes tea" 1700000000 7 None None None) 1%nat).
  reflexivity.
Defined.

Lemma extraction_of_carried_records_witness :
  @process_conversation sample_runtime
    (convo_of (map (fun km : string * Memory => (fst km, node_of (snd km)))
                 [("m1", Build_Memory "likes tea" 100 200 None (Some "gpt-4") None)]))
    0%nat
  = (Ok (map snd [("m1", Build_Memory "likes tea" 100 200 None (Some "gpt-4") None)],
         Z.of_nat (List.length
                     [("m1", Build_Memory "likes tea" 100 200 None (Some "gpt-4") None)])),
     0%nat).
Proof.
  apply (@extraction_of_carried_records sample_runtime
           [("m1", Build_Memory "likes tea" 100 200 None (Some "gpt-4") None)] 0%nat).
  repeat constructor; simpl; discriminate.
Defined.

(** ** [fetch_open_webui_memories] beyond the claims *)

Section FetchFacts.
Context `{Runtime}.

Lemma server_memory_raises memory_data n e n' :
  server_memory memory_data n = (Raise e, n') ->
  e = KeyError \/ e = TypeError \/ e = ValidationError.
Proof.
  unfold server_memory, now. intros Hrun.
  unfold bind at 1, lift at 1 in Hrun.
  destruct memory_data; simpl in Hrun; try (injection Hrun as <- _; auto).
  destruct (dict_get "content" entries) as [cf|]; simpl in Hrun;
    [|injection Hrun as <- _; auto].
  unfold bind, lift in Hrun. simpl in Hrun.
  destruct (dict_get "created_at" entries), (dict_get "updated_at" entries),
    (dict_get "weight" entries), (dict_get "model" entries),
    (dict_get "id" entries); simpl in Hrun;
    injection Hrun as Hinit _; apply Memory_init_raises in Hinit; auto.
Qed.

Lemma server_memory_on_object d n :
  exists r, server_memory (VDict d) n = (r, match dict_get "content" d with
                                             | Some _ => S (S n)
                                             | None => n
                                             end)
            /\ (forall e, r = Raise e -> e = KeyError \/ e = ValidationError).
Proof.
  unfold server_memory, now, bind, lift. simpl.
  destruct (dict_get "content" d) as [cf|]; simpl.
  - destruct (dict_get "created_at" d), (dict_get "updated_at" d),
      (dict_get "weight" d), (dict_get "model" d), (dict_get "id" d); simpl;
      eexists; (split; [reflexivity|]); intros e He;
      apply Memory_init_raises in He; auto.
  - eexists. split; [reflexivity|]. intros e [= <-]. auto.
Qed.

(** X15. Past the response, [fetch_open_webui_memories] raises nothing
    but TypeError: a KeyError or a ValidationError of one object never
    leaves it. *)
Theorem fetch_exceptions memories_data n e n' :
  fetch_open_webui_memories memories_data n = (Raise e, n') ->
  e = TypeError.
Proof.
  unfold fetch_open_webui_memories. intros Hrun.
  unfold bind at 1, lift at 1 in Hrun.
  destruct (py_iter memories_data) as [items|e0] eqn:Eiter.
  2:{ injection Hrun as <- _.
      destruct memories_data; simpl in Eiter; try discriminate;
        now injection Eiter as <-. }
  refine (for_each_raises _ (fun e => e = TypeError) items _ [] n e n' Hrun).
  intros s memory_data n0 e0 n0' _ Hbody.
  unfold try_except, bind, ret in Hbody.
  destruct (server_memory memory_data n0) as [[m|e1] n1] eqn:Esm;
    [discriminate|].
  apply server_memory_raises in Esm.
  destruct (is_ValidationError_or_KeyError e1) eqn:Ecaught; [discriminate|].
  injection Hbody as <- _.
  destruct Esm as [-> | [-> | ->]]; [discriminate | reflexivity | discriminate].
Qed.

Lemma fetch_loop_on_objects items : forall acc n,
  Forall (fun x => exists d, x = VDict d) items ->
  exists memories n',
    for_each
      (fun memories memory_data =>
         try_except is_ValidationError_or_KeyError
           (memory <- server_memory memory_data ;; ret (memories ++ [memory])%list)
           (ret memories))
      items acc n = (Ok memories, n')
    /\ (List.length memories <= List.length acc + List.length items)%nat.
Proof.
  induction items as [|x rest IH]; intros acc n Hall; simpl.
  - exists acc, n. unfold ret. split; [reflexivity | lia].
  - inversion Hall as [|? ? [d ->] Hrest]; subst.
    unfold bind at 1, try_except, bind, ret.
    destruct (server_memory_on_object d n) as [r [-> Hr]].
    destruct r as [m|e].
    + destruct (IH (acc ++ [m])%list
                  (match dict_get "content" d with Some _ => S (S n) | None => n end)
                  Hrest) as [ms [n' [Hrun Hlen]]].
      exists ms, n'. split; [exact Hrun|].
      rewrite length_app in Hlen. simpl in Hlen. lia.
    + destruct (Hr e eq_refl) as [-> | ->]; simpl;
        destruct (IH acc
                    (match dict_get "content" d with Some _ => S (S n) | None => n end)
                    Hrest) as [ms [n' [Hrun Hlen]]];
        exists ms, n'; (split; [exact Hrun | lia]).
Qed.

(** X16. A response that is a list of objects is always fetched: whatever
    the objects hold, the function returns, with at most one record for
    each object. *)
Theorem fetch_returns_on_objects items n :
  Forall (fun x => exists d, x = VDict d) items ->
  exists memories n',
    fetch_open_webui_memories (VList items) n = (Ok memories, n')
    /\ (List.length memories <= List.length items)%nat.
Proof.
  intros Hall. unfold fetch_open_webui_memories. simpl.
  unfold bind at 1, lift at 1.
  destruct (fetch_loop_on_objects items [] n Hall) as [ms [n' [Hrun Hlen]]].
  exists ms, n'. split; [exact Hrun | exact Hlen].
Qed.

(** X17. An object without "content" leaves no trace: the response with
    such an object anywhere in it is fetched into the same records, with
    the same clock readings, as the response without it. *)
Theorem object_without_content_is_skipped before d after n :
  dict_get "content" d = None ->
  fetch_open_webui_memories (VList (before ++ VDict d :: after)) n
  = fetch_open_webui_memories (VList (before ++ after)) n.
Proof.
  intros Hd. unfold fetch_open_webui_memories. simpl.
  unfold bind at 1 3, lift. rewrite !for_each_app.
  destruct (for_each _ before [] n) as [[acc|e] n1]; [|reflexivity].
  simpl. unfold bind at 1, try_except at 1, bind at 1.
  unfold server_memory at 1. unfold bind at 1, lift at 1. simpl.
  rewrite Hd. simpl. reflexivity.
Qed.

Lemma server_memory_object_of m n :
  server_memory (object_of m) n = (Ok m, S (S n)).
Proof.
  destruct m as [c ca ua w md sid].
  unfold server_memory, object_of, now, bind, lift, Memory_init. simpl.
  rewrite validate_str_str, !validate_int_int.
  destruct w as [f|], md as [s|], sid as [i|]; simpl;
    rewrite ?validate_float_float, ?validate_str_str; reflexivity.
Qed.

Lemma fetch_loop_objects_of mems : forall acc n,
  for_each
    (fun memories memory_data =>
       try_except is_ValidationError_or_KeyError
         (memory <- server_memory memory_data ;; ret (memories ++ [memory])%list)
         (ret memories))
    (map object_of mems) acc n
  = (Ok (acc ++ mems)%list, (n + 2 * List.length mems)%nat).
Proof.
  induction mems as [|m rest IH]; intros acc n; simpl.
  - unfold ret. rewrite app_nil_r. f_equal. lia.
  - unfold bind at 1, try_except, bind, ret.
    rewrite server_memory_object_of. rewrite IH.
    rewrite <- app_assoc. simpl. f_equal. lia.
Qed.

(** X18. Fetching gives back what a response carries: the list of the
    objects that hold the fields of the records (id, content, created_at,
    updated_at, weight, model, null for a field that is None) is fetched
    into exactly these records, in order, with two readings of the clock
    for each. *)
Theorem fetch_of_carried_records mems n :
  fetch_open_webui_memories (VList (map object_of mems)) n
  = (Ok mems, (n + 2 * List.length mems)%nat).
Proof.
  unfold fetch_open_webui_memories. simpl. unfold bind at 1, lift at 1.
  apply (fetch_loop_objects_of mems [] n).
Qed.

End FetchFacts.

Lemma fetch_exceptions_witness : TypeError = TypeError.
Proof.
  apply (@fetch_exceptions sample_runtime (VInt 3) 0%nat TypeError 0%nat).
  reflexivity.
Defined.

Lemma fetch_returns_on_objects_witness :
  exists memories n',
    @fetch_open_webui_memories sample_runtime
      (VList [VDict [("content", VList [])]; VDict []]) 0%nat
    = (Ok memories, n')
    /\ (List.length memories
        <= List.length [VDict [("content", VList [])]; VDict []])%nat.
Proof.
  apply (@fetch_returns_on_objects sample_runtime
           [VDict [("content", VList [])]; VDict []] 0%nat).
  repeat constructor; eexists; reflexivity.
Defined.

Lemma object_without_content_is_skipped_witness :
  @fetch_open_webui_memories sample_runtime
    (VList ([object_of (mem "likes tea" 100 (Some "s1"))]
            ++ VDict [("id", VStr "s2")]
               :: [object_of (mem "has a cat" 100 (Some "s3"))])) 0%nat
  = @fetch_open_webui_memories sample_runtime
      (VList ([object_of (mem "likes tea" 100 (Some "s1"))]
              ++ [object_of (mem "has a cat" 100 (Some "s3"))])) 0%nat.
Proof.
  apply (@object_without_content_is_skipped sample_runtime
           [object_of (mem "likes tea" 100 (Some "s1"))]
           [("id", VStr "s2")]
           [object_of (mem "has a cat" 100 (Some "s3"))] 0%nat).
  reflexivity.
Defined.

(** ** [extract_memories] *)

Lemma total_messages_returns convos : forall acc,
  (exists total, total_messages_from acc convos = Ok total)
  <-> Forall (fun convo => exists size, mapping_size convo = Ok size) convos.
Proof.
  induction convos as [|convo rest IH]; intros acc; simpl.
  - split; [constructor | intros _; now exists acc].
  - destruct (mapping_size convo) as [size|e] eqn:E.
    + rewrite IH. split.
      * intros Hrest. constructor; [now exists size | assumption].
      * intros Hall. now inversion Hall.
    + split; [intros [? ?]; discriminate|].
      intros Hall. inversion Hall as [|? ? [size Hsize] _]. congruence.
Qed.

Lemma collect_all rs : forall acc progress,
  fst (fold_left collect rs (acc, progress))
  = (acc ++ flat_map (fun r : result (list Memory * Z) =>
                        match r with
                        | Ok (memories, _) => memories
                        | Raise _ => []
                        end) rs)%list.
Proof.
  induction rs as [|r rest IH]; intros acc progress; simpl.
  - now rewrite app_nil_r.
  - destruct r as [[ms k]|e]; rewrite IH; [|reflexivity].
    now rewrite <- app_assoc.
Qed.

Lemma extracted_from_tasks R conversations sched order all_memories convos m :
  gather_memories R conversations sched order = Ok all_memories ->
  py_iter conversations = Ok convos ->
  (In m all_memories
   <-> exists i convo memories count,
         In i order
         /\ nth_error convos i = Some convo
         /\ task_result R sched i convo = Ok (memories, count)
         /\ In m memories).
Proof.
  unfold gather_memories. intros Hrun Hiter. rewrite Hiter in Hrun.
  destruct (total_messages_from 0 convos); [|discriminate].
  injection Hrun as <-. rewrite collect_all. simpl.
  rewrite in_flat_map. unfold completed. split.
  - intros [r [Hr Hm]]. apply in_flat_map in Hr. destruct Hr as [i [Hi Hr]].
    destruct (nth_error convos i) as [convo|] eqn:En; [|destruct Hr].
    destruct Hr as [<- | []].
    destruct (task_result R sched i convo) as [[ms k]|] eqn:Et; [|destruct Hm].
    exists i, convo, ms, k. auto.
  - intros [i [convo [ms [k [Hi [Hn [Ht Hm]]]]]]].
    exists (Ok (ms, k)). split; [|assumption].
    apply in_flat_map. exists i. split; [assumption|].
    rewrite Hn, Ht. now left.
Qed.

(** X20. A conversation that raises takes only its own records with it.
    When the loop over the futures is done (line 58), the list
    [all_memories], which [extract_memories] then writes and returns,
    holds exactly the records of the conversations whose processing
    returned: every record of such a conversation is there, whichever
    other conversation raised, and nothing else is. *)
Theorem extraction_keeps_the_good_conversations
    R conversations sched order all_memories convos m :
  gather_memories R conversations sched order = Ok all_memories ->
  py_iter conversations = Ok convos ->
  (In m all_memories
   <-> exists i convo memories count,
         In i order
         /\ nth_error convos i = Some convo
         /\ task_result R sched i convo = Ok (memories, count)
         /\ In m memories).
Proof. apply extracted_from_tasks. Qed.

(** X21. Whatever the schedule of the pool and the order of completion,
    every record of the list that [extract_memories] gathers, and
    returns once it is written, has no server id and has as content the
    newline-join of the parts of a "bio" message of one of the
    conversations. *)
Theorem extracted_records_come_from_bio_messages
    R conversations sched order all_memories convos m :
  gather_memories R conversations sched order = Ok all_memories ->
  py_iter conversations = Ok convos ->
  In m all_memories ->
  server_id m = None
  /\ exists convo p items,
       In convo convos
       /\ bio_parts convo p
       /\ str_items p = Some items
       /\ content m = join newline items.
Proof.
  intros Hrun Hiter Hm.
  apply (extracted_from_tasks _ _ _ _ _ _ m Hrun Hiter) in Hm.
  destruct Hm as [i [convo [ms [k [_ [Hn [Ht Hin]]]]]]].
  unfold task_result in Ht.
  destruct (@process_conversation
              (with_clock R (fun k0 => @clock R (sched i k0))) convo 0%nat)
    as [r n'] eqn:Erun.
  simpl in Ht. subst r.
  destruct (@process_conversation_records _ _ _ _ _ _ Erun m Hin)
    as [p [items [Hbio [Hit [Hc Hsid]]]]].
  split; [assumption|].
  exists convo, p, items. repeat split; try assumption.
  now apply nth_error_In in Hn.
Qed.

Lemma extraction_keeps_the_good_conversations_witness :
  In (Build_Memory "has a cat" 100 200 None (Some "gpt-4") None)
     [Build_Memory "has a cat" 100 200 None (Some "gpt-4") None]
  <-> exists i convo memories count,
        In i [1%nat; 0%nat]
        /\ nth_error [convo_bad_create_time; convo_bad_model] i = Some convo
        /\ task_result sample_runtime (fun _ k => k) i convo = Ok (memories, count)
        /\ In (Build_Memory "has a cat" 100 200 None (Some "gpt-4") None) memories.
Proof.
  apply (extraction_keeps_the_good_conversations sample_runtime
           (VList [convo_bad_create_time; convo_bad_model])
           (fun _ k => k) [1%nat; 0%nat]); reflexivity.
Defined.

Lemma extracted_records_come_from_bio_messages_witness :
  server_id (Build_Memory "has a cat" 100 200 None (Some "gpt-4") None) = None
  /\ exists convo p items,
       In convo [convo_bad_create_time; convo_bad_model]
       /\ bio_parts convo p
       /\ str_items p = Some items
       /\ content (Build_Memory "has a cat" 100 200 None (Some "gpt-4") None)
          = join newline items.
Proof.
  apply (extracted_records_come_from_bio_messages sample_runtime
           (VList [convo_bad_create_time; convo_bad_model])
           (fun _ k => k) [1%nat; 0%nat]
           [Build_Memory "has a cat" 100 200 None (Some "gpt-4") None]).
  - reflexivity.
  - reflexivity.
  - simpl. left. reflexivity.
Defined.

(** ** The calls to the server *)

Section HttpFacts.
Context `{Network}.

Lemma each_memory_sent (request : Memory -> http_request) memories :
  forall failed sent,
    snd (each_memory (fun memory => send_ok (request memory)) memories failed sent)
    = (sent ++ map request memories)%list.
Proof.
  induction memories as [|m rest IH]; intros failed sent; simpl.
  - now rewrite app_nil_r.
  - rewrite IH. now rewrite <- app_assoc.
Qed.

Lemma delete_memories_sent memories url user_id jwt_token sent :
  snd (delete_memories memories url user_id jwt_token sent)
  = (sent ++ map (delete_request url jwt_token) memories)%list.
Proof. apply each_memory_sent. Qed.

Lemma upload_memories_sent memories url user_id jwt_token sent :
  snd (upload_memories memories url user_id jwt_token sent)
  = (sent ++ map (add_request url user_id jwt_token) memories)%list.
Proof. apply each_memory_sent. Qed.

Lemma apply_plan_sent g url user_id jwt_token sent :
  snd (apply_plan g url user_id jwt_token sent)
  = (sent
     ++ map (delete_request url jwt_token) (memories_to_delete g)
     ++ map (add_request url user_id jwt_token) (memories_to_upload g))%list.
Proof.
  unfold apply_plan.
  pose proof (delete_memories_sent (memories_to_delete g) url user_id jwt_token sent)
    as Hd.
  destruct (memories_to_delete g) as [|d ds] eqn:Ed.
  - pose proof (upload_memories_sent (memories_to_upload g) url user_id
                  jwt_token sent) as Hu.
    destruct (memories_to_upload g) as [|u us] eqn:Eu; simpl.
    + now rewrite app_nil_r.
    + destruct (upload_memories (u :: us) url user_id jwt_token sent)
        as [nu sent2]. simpl in *. exact Hu.
  - destruct (delete_memories (d :: ds) url user_id jwt_token sent)
      as [nd sent1]. simpl in Hd. subst sent1.
    pose proof (upload_memories_sent (memories_to_upload g) url user_id
                  jwt_token (sent ++ map (delete_request url jwt_token) (d :: ds)))
      as Hu.
    destruct (memories_to_upload g) as [|u us] eqn:Eu; simpl.
    + now rewrite app_nil_r.
    + destruct (upload_memories (u :: us) url user_id jwt_token _)
        as [nu sent2]. simpl in Hu. subst sent2. simpl.
      now rewrite <- app_assoc.
Qed.


End HttpFacts.

Section SyncFacts.
Context `{Runtime} `{Network}.



End SyncFacts.



Lemma reconcile_nothing_extracted remote : reconcile [] remote = ([], []).
Proof.
  rewrite reconcile_flat.
  change (by_content []) with (@nil (string * Memory)).
  destruct (stale_local_no_local (by_content remote)) as [-> ->].
  reflexivity.
Qed.

Section SyncSafety.
Context `{Runtime} `{Network}.

Lemma sync_sent all_memories url user_id jwt_token n sent
    status_code memories_data existing n' :
  respond sent (fetch_request url user_id jwt_token)
  = Responded status_code (Some memories_data) ->
  raises_for_status status_code = false ->
  fetch_open_webui_memories memories_data n = (Ok existing, n') ->
  snd (sync all_memories url user_id jwt_token n sent)
  = (sent
     ++ fetch_request url user_id jwt_token
        :: map (delete_request url jwt_token)
             (snd (reconcile all_memories existing))
     ++ map (add_request url user_id jwt_token)
          (fst (reconcile all_memories existing)))%list.
Proof.
  intros Hresp Hstatus Hfetch. unfold sync.
  rewrite Hresp, Hstatus, Hfetch.
  pose proof (apply_plan_sent (reconcile_block (enter all_memories existing))
                url user_id jwt_token
                (sent ++ [fetch_request url user_id jwt_token])) as Hsent.
  destruct (apply_plan _ url user_id jwt_token _) as [[nd nu] sent2].
  simpl in Hsent. subst sent2. simpl. rewrite <- app_assoc. reflexivity.
Qed.

(** X25. With nothing extracted the run only looks: whatever the server
    holds and whatever it answers, the GET is the one request sent. *)
Theorem nothing_extracted_nothing_changed url user_id jwt_token n sent :
  snd (sync [] url user_id jwt_token n sent)
  = (sent ++ [fetch_request url user_id jwt_token])%list.
Proof.
  destruct (respond sent (fetch_request url user_id jwt_token))
    as [status_code body|] eqn:Eresp;
    [|unfold sync; now rewrite Eresp].
  destruct (raises_for_status status_code) eqn:Estatus;
    [unfold sync; now rewrite Eresp, Estatus|].
  destruct body as [memories_data|];
    [|unfold sync; now rewrite Eresp, Estatus].
  destruct (fetch_open_webui_memories memories_data n) as [[existing|e] n'] eqn:Ef;
    [|unfold sync; now rewrite Eresp, Estatus, Ef].
  rewrite (sync_sent [] url user_id jwt_token n sent _ _ _ _ Eresp Estatus Ef).
  now rewrite reconcile_nothing_extracted.
Qed.

(** X26. A run deletes on the server only what an extracted record
    replaces. Every DELETE that a run sends is the deletion of one of the
    fetched records, and some extracted record has the same content and a
    strictly earlier created_at. *)
Theorem run_deletes_only_replaced_records
    all_memories url user_id jwt_token n sent
    status_code memories_data existing n' new request :
  respond sent (fetch_request url user_id jwt_token)
  = Responded status_code (Some memories_data) ->
  raises_for_status status_code = false ->
  fetch_open_webui_memories memories_data n = (Ok existing, n') ->
  snd (sync all_memories url user_id jwt_token n sent) = (sent ++ new)%list ->
  In request new ->
  method request = DELETE ->
  exists d l,
    request = delete_request url jwt_token d
    /\ In d existing
    /\ In l all_memories
    /\ content l = content d
    /\ created_at l < created_at d.
Proof.
  intros Hresp Hstatus Hfetch Hnew Hin Hmethod.
  rewrite (sync_sent _ _ _ _ _ _ _ _ _ _ Hresp Hstatus Hfetch) in Hnew.
  apply app_inv_head in Hnew. subst new.
  destruct Hin as [<- | Hin]; [discriminate|].
  apply in_app_iff in Hin. destruct Hin as [Hin | Hin];
    apply in_map_iff in Hin; destruct Hin as [x [<- Hx]]; [|discriminate].
  apply in_deletions in Hx. destruct Hx as [Hs [l [Hl Hlt]]].
  apply by_content_get_content in Hs. apply by_content_get_content in Hl.
  exists x, l. tauto.
Qed.

End SyncSafety.

Lemma run_deletes_only_replaced_records_witness :
  exists d l,
    delete_request (Some "http://localhost:3000") (Some "token")
      (Build_Memory "likes tea" 100 100 None None (Some "s1"))
    = delete_request (Some "http://localhost:3000") (Some "token") d
    /\ In d [Build_Memory "likes tea" 100 100 None None (Some "s1")]
    /\ In l [mem "likes tea" 50 None]
    /\ content l = content d
    /\ created_at l < created_at d.
Proof.
  apply (@run_deletes_only_replaced_records sample_runtime server_ok
           [mem "likes tea" 50 None]
           (Some "http://localhost:3000") (Some "u1") (Some "token") 0%nat []
           200 body_with_id
           [Build_Memory "likes tea" 100 100 None None (Some "s1")] 2%nat
           [fetch_request (Some "http://localhost:3000") (Some "u1") (Some "token");
            delete_request (Some "http://localhost:3000") (Some "token")
              (Build_Memory "likes tea" 100 100 None None (Some "s1"));
            add_request (Some "http://localhost:3000") (Some "u1") (Some "token")
              (mem "likes tea" 50 None)]
           (delete_request (Some "http://localhost:3000") (Some "token")
              (Build_Memory "likes tea" 100 100 None None (Some "s1"))));
    try reflexivity.
  simpl. right. left. reflexivity.
Defined.

(** * The claims on single records *)

(** ** C2 *)











Example sample_plan :
  reconcile sample_local sample_remote
  = ([mem "a" 50 None; mem "c" 9 None], [mem "a" 100 (Some "s1")]).
Proof. reflexivity. Qed.


(** ** C3 *)

Section NothingFiltered.
Context `{Runtime}.

Lemma float_or_none_value w n wv n' :
  float_or_none w n = (Ok wv, n') ->
  wv = VNone \/ exists f, wv = VFloat f.
Proof.
  unfold float_or_none, bind, lift, ret.
  destruct w; try (intros [= <- _]; now left);
    match goal with
    | |- context [py_float ?x] =>
        destruct (py_float x) as [fw|]; [|discriminate];
        intros [= <- _]; right; now exists fw
    end.
Qed.

Lemma new_memory_refused mc ct ut w md n e n' :
  new_memory mc ct ut w md n = (Raise e, n') ->
  is_ValidationError e = true ->
  truthy md = true /\ validate_str md = None.
Proof.
  unfold new_memory, bind. intros Hrun Hcaught.
  destruct (time_or_now ct n) as [[created|e1] n1] eqn:E1.
  2:{ injection Hrun as <- _. apply time_or_now_raises in E1.
      destruct E1 as [-> | [-> | ->]]; discriminate. }
  destruct (time_or_now ut n1) as [[updated|e2] n2] eqn:E2.
  2:{ injection Hrun as <- _. apply time_or_now_raises in E2.
      destruct E2 as [-> | [-> | ->]]; discriminate. }
  destruct (float_or_none w n2) as [[wv|e3] n3] eqn:E3.
  2:{ injection Hrun as <- _. unfold float_or_none, bind, lift, ret in E3.
      destruct w; try discriminate;
        match type of E3 with
        | context [py_float ?x] =>
            destruct (py_float x) eqn:Ef; [discriminate|];
            injection E3 as <- _; apply py_float_raises in Ef;
            destruct Ef as [-> | [-> | ->]]; discriminate
        end. }
  unfold lift in Hrun. injection Hrun as Hinit _.
  unfold Memory_init in Hinit.
  rewrite validate_str_str, !validate_int_int in Hinit.
  assert (Hw : exists x, validate_optional validate_float wv = Some x).
  { destruct (float_or_none_value _ _ _ _ E3) as [-> | [f ->]]; simpl.
    - now exists None.
    - rewrite validate_float_float. now exists (Some f). }
  destruct Hw as [x Hw]. rewrite Hw in Hinit. simpl in Hinit.
  destruct (truthy md) eqn:Et.
  - split; [reflexivity|].
    destruct md; simpl in Et; try discriminate; simpl in Hinit;
      match type of Hinit with
      | context [validate_str ?v] =>
          destruct (validate_str v); [discriminate | reflexivity]
      end.
  - simpl in Hinit. discriminate.
Qed.

(** One turn of the loop, with the reason when no record is added. *)
Lemma process_message_outcome memories msg_data n memories' n' :
  process_message memories msg_data n = (Ok memories', n') ->
  (memories' = memories /\ (passed_over msg_data \/ slug_refused msg_data))
  \/ exists m p items,
       memories' = (memories ++ [m])%list
       /\ bio_parts_of msg_data p
       /\ str_items p = Some items
       /\ content m = join newline items
       /\ server_id m = None.
Proof.
  unfold process_message. intros Hrun.
  destruct (truthy msg_data) eqn:Etd; simpl in Hrun.
  2:{ unfold ret in Hrun. injection Hrun as <- _. left.
      split; [reflexivity|]. left. now left. }
  run_lift Hrun (py_get msg_data "message" VNone) message Emsg.
  destruct (truthy message) eqn:Etm; simpl in Hrun.
  2:{ unfold ret in Hrun. injection Hrun as <- _. left.
      split; [reflexivity|]. left. right. exists message. auto. }
  run_lift Hrun (py_get message "recipient" VNone) recipient Erec.
  destruct (eq_str recipient "bio") eqn:Ebio.
  2:{ unfold ret in Hrun. injection Hrun as <- _. left.
      split; [reflexivity|]. left. right. exists message.
      split; [assumption|]. right. exists recipient. auto. }
  run_lift Hrun (py_get message "content" (VDict [])) cf Ecf.
  run_lift Hrun (py_get cf "parts" (VList [])) p Ep.
  unfold bind at 1, lift at 1, py_join in Hrun.
  destruct (str_items p) as [items|] eqn:Eitems; [|discriminate].
  run_lift Hrun (py_get message "create_time" VNone) ct Ect.
  run_lift Hrun (py_get message "update_time" VNone) ut Eut.
  run_lift Hrun (py_get message "weight" VNone) w Ew.
  run_lift Hrun (py_get message "metadata" (VDict [])) md Emd.
  run_lift Hrun (py_get md "model_slug" VNone) slug Eslug.
  assert (Hbio : bio_parts_of msg_data p).
  { split; [assumption|]. exists message, recipient, cf. auto 7. }
  unfold try_except, bind, ret in Hrun.
  destruct (new_memory (join newline items) ct ut w slug n) as [[m|e] n1] eqn:Enew.
  - injection Hrun as <- _. right. exists m, p, items.
    apply new_memory_fields in Enew. destruct Enew as [Hc Hsid]. auto.
  - destruct (is_ValidationError e) eqn:Ev; [|discriminate].
    injection Hrun as <- _. left. split; [reflexivity|]. right.
    destruct (new_memory_refused _ _ _ _ _ _ _ _ Enew Ev) as [Ht Hv].
    split; [now exists p|]. exists message, md, slug. auto.
Qed.

Lemma for_each_records_of mapping : forall acc n memories n',
  for_each (fun memories (item : string * value) =>
              process_message memories (snd item))
    mapping acc n = (Ok memories, n') ->
  exists added, memories = (acc ++ added)%list /\ records_of mapping added.
Proof.
  induction mapping as [|[key msg_data] rest IH]; intros acc n memories n' Hrun;
    simpl in Hrun.
  - unfold ret in Hrun. injection Hrun as <- _. exists [].
    split; [now rewrite app_nil_r | constructor].
  - unfold bind in Hrun.
    destruct (process_message acc msg_data n) as [[acc'|e] n1] eqn:E;
      [|discriminate].
    destruct (IH _ _ _ _ Hrun) as [added [-> Hrest]].
    destruct (process_message_outcome _ _ _ _ _ E)
      as [[-> [Hpass | Hrefused]] | [m [p [items [-> [Hbio [Hit [Hc Hsid]]]]]]]].
    + exists added. split; [reflexivity | now apply records_passed_over].
    + exists added. split; [reflexivity | now apply records_refused].
    + exists (m :: added). split; [now rewrite <- app_assoc|].
      now apply (records_one key msg_data p items).
Qed.

End NothingFiltered.

(** C3, as the code has it. Extraction filters nothing on content. The
    records of a conversation are, node by node and in the order of the
    mapping, one record for every "bio" message that pydantic accepts,
    whose content is the newline-join of the parts of that message; a
    node gives no record only when it holds no "bio" message or when its
    truthy model_slug is refused. So the content of a record is the empty
    string exactly when the parts of its message yield no string at all
    or the single empty string, and such a record is kept. *)
Theorem every_bio_message_is_extracted `{Runtime}
    convo n memories count n' :
  process_conversation convo n = (Ok (memories, count), n') ->
  exists mapping,
    py_get convo "mapping" (VDict []) = Ok (VDict mapping)
    /\ records_of mapping memories
    /\ forall m, In m memories ->
         exists p items,
           bio_parts convo p
           /\ str_items p = Some items
           /\ content m = join newline items
           /\ (content m = "" <-> items = [] \/ items = [""]).
Proof.
  intros Hall. pose proof Hall as Hrun. unfold process_conversation in Hrun.
  run_lift Hrun (py_get convo "mapping" (VDict [])) mf Emf.
  run_lift Hrun (py_items mf) mapping Eitems.
  destruct mf; try discriminate. injection Eitems as ->.
  unfold bind, ret in Hrun.
  destruct (for_each _ mapping [] n) as [[ms|?] n1] eqn:Eloop; [|discriminate].
  injection Hrun as <- _ _.
  exists mapping. split; [reflexivity|]. split.
  - destruct (for_each_records_of _ _ _ _ _ Eloop) as [added [-> Hrec]].
    exact Hrec.
  - intros m Hm.
    destruct (process_conversation_records _ _ _ _ _ Hall m Hm)
      as [p [items [Hbio [Hit [Hc _]]]]].
    exists p, items. split; [assumption|]. split; [assumption|].
    split; [assumption|]. rewrite Hc. apply join_empty, newline_not_empty.
Qed.

Lemma every_bio_message_is_extracted_witness :
  exists mapping,
    py_get (convo_of [("m1", bio_node (VList []) (VInt 100) (VStr "gpt-4"));
                      ("m2", VDict [("message", VNone)]);
                      ("m3", bio_node (VList [VStr "likes tea"]) (VInt 100)
                               (VList [VInt 4]));
                      ("m4", bio_node (VList [VStr "has a cat"]) (VInt 100)
                               (VStr "gpt-4"))])
      "mapping" (VDict []) = Ok (VDict mapping)
    /\ @records_of sample_runtime mapping
         [Build_Memory "" 100 200 None (Some "gpt-4") None;
          Build_Memory "has a cat" 100 200 None (Some "gpt-4") None]
    /\ forall m,
         In m [Build_Memory "" 100 200 None (Some "gpt-4") None;
               Build_Memory "has a cat" 100 200 None (Some "gpt-4") None] ->
         exists p items,
           bio_parts
             (convo_of [("m1", bio_node (VList []) (VInt 100) (VStr "gpt-4"));
                        ("m2", VDict [("message", VNone)]);
                        ("m3", bio_node (VList [VStr "likes tea"]) (VInt 100)
                                 (VList [VInt 4]));
                        ("m4", bio_node (VList [VStr "has a cat"]) (VInt 100)
                                 (VStr "gpt-4"))]) p
           /\ str_items p = Some items
           /\ content m = join newline items
           /\ (content m = "" <-> items = [] \/ items = [""]).
Proof.
  apply (@every_bio_message_is_extracted sample_runtime _ 0%nat _ 4 0%nat).
  reflexivity.
Defined.

(** ** C8 *)

Section ServerIds.
Context `{Runtime}.



End ServerIds.



(** ** [extract_memories] to its end *)

Lemma gather_memories_returns R conversations sched order :
  (exists all_memories,
     gather_memories R conversations sched order = Ok all_memories)
  <-> exists convos,
        py_iter conversations = Ok convos
        /\ Forall (fun convo => exists size, mapping_size convo = Ok size) convos.
Proof.
  unfold gather_memories. split.
  - intros [all Hrun].
    destruct (py_iter conversations) as [convos|]; [|discriminate].
    exists convos. split; [reflexivity|].
    apply (total_messages_returns convos 0).
    destruct (total_messages_from 0 convos) as [total|]; [|discriminate].
    now exists total.
  - intros [convos [-> Hall]].
    apply (total_messages_returns convos 0) in Hall.
    destruct Hall as [total ->]. eexists. reflexivity.
Qed.

Lemma write_lines_count O memories : forall written lines,
  write_lines O memories written = Some lines ->
  List.length lines = (List.length written + List.length memories)%nat.
Proof.
  induction memories as [|m rest IH]; intros written lines; simpl.
  - intros [= <-]. lia.
  - destruct (@to_json O m) as [text|]; [|discriminate].
    destruct (@writes O written (text ++ newline)%string); [|discriminate].
    intros Hrest. apply IH in Hrest. rewrite length_app in Hrest.
    simpl in Hrest. lia.
Qed.

(** X19. How [extract_memories] ends. It raises at line 42, before any
    conversation is processed and before the output file is opened,
    exactly when the input is not iterable or some conversation is not an
    object or has a "mapping" without a length (null, a number): what
    [process_conversation] would do with the conversations plays no
    part. It returns exactly when it gets past line 42 and the output
    file opens, every gathered record is serialised, every write and the
    closing return; the list returned is the list gathered by the pool
    loop and the file has one line for each of its records. *)
Theorem extract_memories_ends R O conversations sched order :
  ((exists e, extract_memories R O conversations sched order = RaisedEarly e)
   <-> ~ exists convos,
           py_iter conversations = Ok convos
           /\ Forall (fun convo => exists size, mapping_size convo = Ok size)
                convos)
  /\ (forall all_memories lines,
        extract_memories R O conversations sched order
        = Returned all_memories lines
        <-> gather_memories R conversations sched order = Ok all_memories
            /\ @opens O = true
            /\ write_lines O all_memories [] = Some lines
            /\ @closes O lines = true)
  /\ (forall all_memories lines,
        extract_memories R O conversations sched order
        = Returned all_memories lines ->
        List.length lines = List.length all_memories).
Proof.
  pose proof (gather_memories_returns R conversations sched order) as Hg.
  unfold extract_memories.
  destruct (gather_memories R conversations sched order) as [all|e] eqn:Eg.
  - assert (Hsized : exists convos,
               py_iter conversations = Ok convos
               /\ Forall (fun convo => exists size, mapping_size convo = Ok size)
                    convos)
      by (apply Hg; now exists all).
    split; [|split].
    + split; [|tauto]. intros [e He].
      destruct (@opens O); [|discriminate].
      destruct (write_lines O all []) as [ls|]; [|discriminate].
      destruct (@closes O ls); discriminate.
    + intros all' lines. split.
      * destruct (@opens O); [|discriminate].
        destruct (write_lines O all []) as [ls|] eqn:Ew; [|discriminate].
        destruct (@closes O ls) eqn:Ec; [|discriminate].
        intros [= <- <-]. auto.
      * intros [[= <-] [-> [-> ->]]]. reflexivity.
    + intros all' lines.
      destruct (@opens O); [|discriminate].
      destruct (write_lines O all []) as [ls|] eqn:Ew; [|discriminate].
      destruct (@closes O ls); [|discriminate].
      intros [= <- <-]. apply write_lines_count in Ew. simpl in Ew. exact Ew.
  - split; [|split].
    + split; [|intros _; now exists e].
      intros _ Hsized. apply Hg in Hsized. destruct Hsized as [? ?].
      discriminate.
    + intros all' lines. split; [discriminate | intros [? _]; discriminate].
    + intros all' lines. discriminate.
Qed.

Lemma extract_memories_ends_witness :
  List.length ["has a cat" ++ newline]%string
  = List.length [Build_Memory "has a cat" 100 200 None (Some "gpt-4") None].
Proof.
  destruct (extract_memories_ends sample_runtime output_ok
              (VList [convo_bad_create_time; convo_bad_model])
              (fun _ k => k) [1%nat; 0%nat]) as [_ [_ Hcount]].
  apply (Hcount [Build_Memory "has a cat" 100 200 None (Some "gpt-4") None]
           ["has a cat" ++ newline]%string).
  reflexivity.
Defined.
